(** * Fk_Project: the crawl engine and the change detector

    A shallow embedding of [utilities/models.py], [utilities/database.py],
    [scheduler/detector.py] and [crawler/scraper.py].

    Python values are embedded as follows: [str] as [string] (UTF-8 bytes),
    [int] as [Z], [float] as an IEEE-754 value [spec_float] compared with
    the IEEE comparison, [Optional[T]] as [option T], a [dict] literal as
    the list of its items in insertion order, [datetime] as the number of
    microseconds since the epoch.  Code that awaits, reads the clock, talks
    to MongoDB or to the network is written in a state monad over [World];
    exceptions are values of [result].  Calls to the logger only write to
    the log sink and are left out. *)

From stdpp Require Import gmap strings list.
From Stdlib Require Import ZArith Floats.SpecFloat DecimalString Lia.

Local Open Scope Z_scope.

(** ** Python primitives *)

Abbreviation float := spec_float.

(** [a != b] on two floats: IEEE comparison, so [nan != nan] holds and
    [0.0 != -0.0] does not. *)
Definition float_ne (a b : float) : bool := negb (SFeqb a b).

(** [a != b] on two ints. *)
Definition int_ne (a b : Z) : bool := negb (a =? b).

(** [str(z)] for an int. *)
Definition str_of_int (z : Z) : string := NilZero.string_of_int (Z.to_int z).

(** Truth value of a [str] and of an [Optional[str]]. *)
Definition truthy_str (s : string) : bool := negb (String.eqb s EmptyString).

Definition truthy_opt_str (o : option string) : bool :=
  match o with
  | Some s => truthy_str s
  | None => false
  end.

(** [a or b] where [a : Optional[str]] and [b : str]. *)
Definition or_str (a : option string) (b : string) : string :=
  match a with
  | Some s => if truthy_str s then s else b
  | None => b
  end.

(** Nearest integer to [n / d], ties to even, for [0 <= n] and [0 < d]. *)
Definition round_half_even (n d : Z) : Z :=
  let q := n / d in
  let r := n mod d in
  if 2 * r <? d then q
  else if d <? 2 * r then q + 1
  else if Z.even q then q else q + 1.

Definition two_digits (k : Z) : string :=
  if k <? 10 then "0" +:+ str_of_int k else str_of_int k.

Definition sign_str (s : bool) : string := if s then "-" else EmptyString.

(** The format specification [:.2f]: the exact binary value rounded to two
    decimals, ties to even. *)
Definition format_2f (x : float) : string :=
  match x with
  | S754_nan => "nan"
  | S754_infinity s => sign_str s +:+ "inf"
  | S754_zero s => sign_str s +:+ "0.00"
  | S754_finite s m e =>
      let n := if 0 <=? e then 100 * Z.pos m * 2 ^ e
               else round_half_even (100 * Z.pos m) (2 ^ (- e)) in
      sign_str s +:+ str_of_int (n / 100) +:+ "." +:+ two_digits (n mod 100)
  end.

(** The value of a [dict] entry in the payloads the detector builds. *)
Inductive pyval :=
  | VFloat (f : float)
  | VInt (z : Z)
  | VStr (s : string).

Definition pydict := list (string * pyval).

(** ** utilities/models.py *)

Inductive CrawlStatus := SUCCESS | FAILED | PARTIAL.

Inductive BookRating := ONE | TWO | THREE | FOUR | FIVE.

Definition rating_value (r : BookRating) : string :=
  match r with
  | ONE => "One"
  | TWO => "Two"
  | THREE => "Three"
  | FOUR => "Four"
  | FIVE => "Five"
  end.

Module Book.
Record t := mk {
  name : string;
  description : option string;
  category : string;
  price_excl_tax : float;
  price_incl_tax : float;
  availability : string;
  num_available : Z;
  num_reviews : Z;
  rating : BookRating;
  image_url : string;
  source_url : string;
  crawl_timestamp : Z;
  crawl_status : CrawlStatus;
  raw_html : option string;
  content_hash : option string;
  id : option string }.

Definition set_content_hash (h : option string) (b : t) : t :=
  mk (name b) (description b) (category b) (price_excl_tax b)
     (price_incl_tax b) (availability b) (num_available b) (num_reviews b)
     (rating b) (image_url b) (source_url b) (crawl_timestamp b)
     (crawl_status b) (raw_html b) h (id b).

Definition set_id (i : option string) (b : t) : t :=
  mk (name b) (description b) (category b) (price_excl_tax b)
     (price_incl_tax b) (availability b) (num_available b) (num_reviews b)
     (rating b) (image_url b) (source_url b) (crawl_timestamp b)
     (crawl_status b) (raw_html b) (content_hash b) i.
End Book.

Inductive ChangeType :=
  | NEW_BOOK
  | PRICE_CHANGE
  | AVAILABILITY_CHANGE
  | CONTENT_CHANGE
  | DELETED.

Module ChangeLog.
Record t := mk {
  book_id : string;
  book_name : string;
  change_type : ChangeType;
  change_timestamp : Z;
  old_value : option pydict;
  new_value : option pydict;
  description : option string;
  id : option string }.
End ChangeLog.

Module CrawlCheckpoint.
Record t := mk {
  checkpoint_id : string;
  last_page_url : string;
  last_book_url : option string;
  total_books_crawled : Z;
  timestamp : Z;
  status : CrawlStatus;
  id : option string }.
End CrawlCheckpoint.

(** ** The world outside the program

    The clock, the HTTP client, BeautifulSoup, [json]/[hashlib] and the
    MongoDB server are not code of this repository; each is an interface
    whose methods the program calls. *)

(** The exceptions [client.get] and [raise_for_status] can raise, with
    httpx's class hierarchy: everything below [httpx.HTTPError] except
    [httpx.InvalidURL], which derives from [Exception] directly. *)
Inductive exn :=
  | HTTPStatusError (status_code : Z)
  | TimeoutException
  | NetworkError
  | UnsupportedProtocol
  | InvalidURL
  | OtherException (msg : string).

Definition is_HTTPError (e : exn) : bool :=
  match e with
  | HTTPStatusError _ | TimeoutException | NetworkError
  | UnsupportedProtocol => true
  | InvalidURL | OtherException _ => false
  end.

Definition is_TimeoutException (e : exn) : bool :=
  match e with
  | TimeoutException => true
  | _ => false
  end.

Inductive result (A : Type) :=
  | Ok (a : A)
  | Raise (e : exn).

Arguments Ok {A} a.
Arguments Raise {A} e.

(** What [await client.get(url)] produces. *)
Inductive reply :=
  | Response (status_code : Z) (text : string)
  | ClientError (e : exn).

(** [utcnow_at n] is the value of the [n]-th call of [datetime.utcnow]. *)
Class Clock := { utcnow_at : nat -> Z }.

(** The server: its answer to a request may depend on the requests made
    before it (oldest first). *)
Class Network := { client_get : list string -> string -> reply }.

(** [crawler/parser.py], whose three entry points walk a BeautifulSoup
    tree.  [parse_book_detail_page] catches every exception itself. *)
Class Parser := {
  parse_book_list_page : string -> string -> result (list string);
  get_next_page_url : string -> string -> result (option string);
  parse_book_detail_page : string -> string -> option Book.t }.

(** [json]'s encoder of a [str], [float.__repr__] of a finite float and
    [hashlib.sha256(..).hexdigest()]. *)
Class Hashlib := {
  json_encode_str : string -> string;
  float_repr : float -> string;
  sha256_hexdigest : string -> string }.

(** [new_object_id n] is the [_id] MongoDB gives to the [n]-th document
    it inserts. *)
Class Mongo := { new_object_id : nat -> string }.

(** What the program does to the outside, in order. *)
Inductive effect :=
  | Get (url : string)
  | Wait (seconds : Z)
  | Pause.

Module Stats.
Record t := mk {
  total_books : Z;
  successful : Z;
  failed : Z;
  skipped : Z;
  start_time : option Z;
  end_time : option Z }.

Definition initial : t := mk 0 0 0 0 None None.
End Stats.

Record World := mkWorld {
  clock_reads : nat;
  effects : list effect;
  db_books : gmap string Book.t;
  db_checkpoints : gmap string CrawlCheckpoint.t;
  db_inserted : nat;
  stats : Stats.t }.

Definition with_effects (f : list effect -> list effect) (w : World) : World :=
  mkWorld (clock_reads w) (f (effects w)) (db_books w) (db_checkpoints w)
          (db_inserted w) (stats w).

Definition with_stats (f : Stats.t -> Stats.t) (w : World) : World :=
  mkWorld (clock_reads w) (effects w) (db_books w) (db_checkpoints w)
          (db_inserted w) (f (stats w)).

Definition empty_world : World := mkWorld 0 [] ∅ ∅ 0 Stats.initial.

(** The URLs requested so far, oldest first. *)
Definition requests (l : list effect) : list string :=
  omap (fun e => match e with Get u => Some u | _ => None end) l.

(** The state monad of the program. *)
Definition M (A : Type) : Type := World -> A * World.

Definition ret {A} (a : A) : M A := fun w => (a, w).

Definition bind {A B} (c : M A) (k : A -> M B) : M B :=
  fun w => let (a, w') := c w in k a w'.

Notation "x <- c ;; k" := (bind c (fun x => k))
  (at level 100, c at next level, right associativity).
Notation "c ;;; k" := (bind c (fun _ => k))
  (at level 100, right associativity).

Definition utcnow `{Clock} : M Z :=
  fun w => (utcnow_at (clock_reads w),
            mkWorld (S (clock_reads w)) (effects w) (db_books w)
                    (db_checkpoints w) (db_inserted w) (stats w)).

Definition emit (e : effect) : M unit :=
  fun w => (tt, with_effects (fun l => l ++ [e]) w).

Definition get_stats : M Stats.t := fun w => (stats w, w).

Definition update_stats (f : Stats.t -> Stats.t) : M unit :=
  fun w => (tt, with_stats f w).

(** [await client.get(url)]. *)
Definition http_get `{Network} (url : string) : M reply :=
  fun w => (client_get (requests (effects w)) url,
            with_effects (fun l => l ++ [Get url]) w).

(** Runs [f] on every element in order and collects the results. *)
Fixpoint mapM {A B} (f : A -> M B) (l : list A) : M (list B) :=
  match l with
  | [] => ret []
  | a :: l' => b <- f a ;; bs <- mapM f l' ;; ret (b :: bs)
  end.

(** ** utilities/database.py *)

(** [json.dumps(d, sort_keys=True)] for a flat [dict]. *)
Fixpoint insert_by_key (kv : string * pyval) (l : pydict) : pydict :=
  match l with
  | [] => [kv]
  | kv' :: l' =>
      if String.leb (fst kv) (fst kv') then kv :: l
      else kv' :: insert_by_key kv l'
  end.

Definition sort_keys (d : pydict) : pydict := foldr insert_by_key [] d.

Definition json_float `{Hashlib} (f : float) : string :=
  match f with
  | S754_nan => "NaN"
  | S754_infinity s => sign_str s +:+ "Infinity"
  | _ => float_repr f
  end.

Definition json_value `{Hashlib} (v : pyval) : string :=
  match v with
  | VFloat f => json_float f
  | VInt z => str_of_int z
  | VStr s => json_encode_str s
  end.

Definition json_item `{Hashlib} (kv : string * pyval) : string :=
  json_encode_str (fst kv) +:+ ": " +:+ json_value (snd kv).

Fixpoint join (sep : string) (l : list string) : string :=
  match l with
  | [] => EmptyString
  | [s] => s
  | s :: l' => s +:+ sep +:+ join sep l'
  end.

Definition json_dumps_sorted `{Hashlib} (d : pydict) : string :=
  "{" +:+ join ", " (map json_item (sort_keys d)) +:+ "}".

Definition compute_content_hash `{Hashlib} (book : Book.t) : string :=
  let content :=
    [ ("name", VStr (Book.name book));
      ("price_incl_tax", VFloat (Book.price_incl_tax book));
      ("price_excl_tax", VFloat (Book.price_excl_tax book));
      ("availability", VStr (Book.availability book));
      ("num_available", VInt (Book.num_available book));
      ("num_reviews", VInt (Book.num_reviews book));
      ("rating", VStr (rating_value (Book.rating book))) ] in
  let content_str := json_dumps_sorted content in
  sha256_hexdigest content_str.

(** [update_one({"source_url": ..}, {"$set": ..}, upsert=True)]: the
    document keeps its [_id] when it exists and gets a new one when it is
    inserted.  Returns [(book_id, is_new)]. *)
Definition upsert_book `{Mongo} (book : Book.t) : M (option string * bool) :=
  fun w =>
    match db_books w !! Book.source_url book with
    | Some stored =>
        ((Book.id stored, false),
         mkWorld (clock_reads w) (effects w)
           (<[Book.source_url book := Book.set_id (Book.id stored) book]>
              (db_books w))
           (db_checkpoints w) (db_inserted w) (stats w))
    | None =>
        let oid := new_object_id (db_inserted w) in
        ((Some oid, true),
         mkWorld (clock_reads w) (effects w)
           (<[Book.source_url book := Book.set_id (Some oid) book]>
              (db_books w))
           (db_checkpoints w) (S (db_inserted w)) (stats w))
    end.

Definition set_checkpoint_id (i : option string) (c : CrawlCheckpoint.t)
  : CrawlCheckpoint.t :=
  CrawlCheckpoint.mk (CrawlCheckpoint.checkpoint_id c)
    (CrawlCheckpoint.last_page_url c) (CrawlCheckpoint.last_book_url c)
    (CrawlCheckpoint.total_books_crawled c) (CrawlCheckpoint.timestamp c)
    (CrawlCheckpoint.status c) i.

Definition save_checkpoint `{Mongo} (checkpoint : CrawlCheckpoint.t) : M unit :=
  fun w =>
    let key := CrawlCheckpoint.checkpoint_id checkpoint in
    match db_checkpoints w !! key with
    | Some stored =>
        (tt,
         mkWorld (clock_reads w) (effects w) (db_books w)
           (<[key := set_checkpoint_id (CrawlCheckpoint.id stored) checkpoint]>
              (db_checkpoints w))
           (db_inserted w) (stats w))
    | None =>
        let oid := new_object_id (db_inserted w) in
        (tt,
         mkWorld (clock_reads w) (effects w) (db_books w)
           (<[key := set_checkpoint_id (Some oid) checkpoint]>
              (db_checkpoints w))
           (S (db_inserted w)) (stats w))
    end.

Definition get_checkpoint (checkpoint_id : string)
  : M (option CrawlCheckpoint.t) :=
  fun w => (db_checkpoints w !! checkpoint_id, w).

(** ** scheduler/detector.py *)

(** [ChangeLog(book_id=.., book_name=.., change_type=.., ..)]: the
    timestamp is filled in by its default factory [datetime.utcnow]. *)
Definition new_ChangeLog `{Clock} (book_id book_name : string)
    (change_type : ChangeType) (old_value new_value : option pydict)
    (description : option string) : M ChangeLog.t :=
  now <- utcnow ;;
  ret (ChangeLog.mk book_id book_name change_type now old_value new_value
         description None).

Definition compare_books `{Clock} (old_book new_book : Book.t)
  : M (list ChangeLog.t) :=
  let changes := [] in
  let book_id := or_str (Book.id old_book) (Book.source_url old_book) in
  let book_name := Book.name old_book in
  (* Detect price changes *)
  changes <-
    (if float_ne (Book.price_incl_tax old_book) (Book.price_incl_tax new_book)
     then
       change <- new_ChangeLog book_id book_name PRICE_CHANGE
         (Some [("price_incl_tax", VFloat (Book.price_incl_tax old_book))])
         (Some [("price_incl_tax", VFloat (Book.price_incl_tax new_book))])
         (Some ("Price changed from £"
                +:+ format_2f (Book.price_incl_tax old_book)
                +:+ " to £" +:+ format_2f (Book.price_incl_tax new_book))) ;;
       ret (changes ++ [change])
     else ret changes) ;;
  (* Detect availability changes *)
  changes <-
    (if int_ne (Book.num_available old_book) (Book.num_available new_book)
     then
       change <- new_ChangeLog book_id book_name AVAILABILITY_CHANGE
         (Some [("num_available", VInt (Book.num_available old_book));
                ("availability", VStr (Book.availability old_book))])
         (Some [("num_available", VInt (Book.num_available new_book));
                ("availability", VStr (Book.availability new_book))])
         (Some ("Availability changed from "
                +:+ str_of_int (Book.num_available old_book)
                +:+ " to " +:+ str_of_int (Book.num_available new_book))) ;;
       ret (changes ++ [change])
     else ret changes) ;;
  (* Detect review count changes *)
  changes <-
    (if int_ne (Book.num_reviews old_book) (Book.num_reviews new_book)
     then
       change <- new_ChangeLog book_id book_name CONTENT_CHANGE
         (Some [("num_reviews", VInt (Book.num_reviews old_book))])
         (Some [("num_reviews", VInt (Book.num_reviews new_book))])
         (Some ("Reviews changed from "
                +:+ str_of_int (Book.num_reviews old_book)
                +:+ " to " +:+ str_of_int (Book.num_reviews new_book))) ;;
       ret (changes ++ [change])
     else ret changes) ;;
  (* Detect other content changes (rating, description, etc.) *)
  changes <-
    (if bool_decide (changes = [])
        && bool_decide (Book.content_hash old_book ≠ Book.content_hash new_book)
     then
       change <- new_ChangeLog book_id book_name CONTENT_CHANGE None None
         (Some ("Content changed for '" +:+ book_name
                +:+ "' (rating or other field)")) ;;
       ret (changes ++ [change])
     else ret changes) ;;
  ret changes.

(** ** crawler/scraper.py *)

(** *** The [tenacity] policy of [fetch_page] *)

(** [stop_after_attempt(n)]: stop once the attempt number reaches [n]. *)
Definition stop_after_attempt (max_attempt_number attempt_number : Z) : bool :=
  max_attempt_number <=? attempt_number.

(** [wait_exponential(multiplier, min, max)] after attempt
    [attempt_number], as [tenacity] computes it:
    [exp = exp_base ** (attempt_number - 1)], [result = multiplier * exp],
    [max(max(0, min), min(result, max))], with [exp_base = 2]. *)
Definition wait_exponential (multiplier min max attempt_number : Z) : Z :=
  Z.max (Z.max 0 min) (Z.min (multiplier * 2 ^ (attempt_number - 1)) max).

(** [retry_if_exception_type((httpx.HTTPError, httpx.TimeoutException))]. *)
Definition retry_if_exception_type (e : exn) : bool :=
  is_HTTPError e || is_TimeoutException e.

(** [response.raise_for_status()]: raises [httpx.HTTPStatusError] unless
    the status is a 2xx. *)
Definition raise_for_status (status_code : Z) : result unit :=
  if (200 <=? status_code) && (status_code <=? 299) then Ok tt
  else Raise (HTTPStatusError status_code).

(** The body of [fetch_page], one attempt.  The tasks of a page are run
    one after the other here, so the semaphore is always free. *)
Definition fetch_page_attempt `{Network} (url : string) : M (result string) :=
  response <- http_get url ;;
  match response with
  | ClientError e => ret (Raise e)
  | Response status_code text =>
      match raise_for_status status_code with
      | Raise e => ret (Raise e)
      | Ok _ => ret (Ok text)
      end
  end.

(** The decorated function: attempt, and on an exception the policy
    says to retry, either stop and re-raise it ([reraise=True]) or sleep
    and attempt again.  [budget] bounds the number of attempts; the
    policy stops before a budget of 3 is used up. *)
Fixpoint retrying `{Network} (budget : nat) (attempt_number : Z) (url : string)
  : M (result string) :=
  match budget with
  | O => ret (Raise (OtherException "RetryError"))
  | S budget' =>
      outcome <- fetch_page_attempt url ;;
      match outcome with
      | Ok text => ret (Ok text)
      | Raise e =>
          if negb (retry_if_exception_type e) then ret (Raise e)
          else if stop_after_attempt 3 attempt_number then ret (Raise e)
          else
            emit (Wait (wait_exponential 1 2 10 attempt_number)) ;;;
            retrying budget' (attempt_number + 1) url
      end
  end.

Definition fetch_page `{Network} (url : string) : M (result string) :=
  retrying 3 1 url.

(** *** [BookScraper] *)

(** [BookScraper.__init__]: a new scraper starts with zeroed statistics. *)
Definition BookScraper_init : M unit :=
  update_stats (fun _ => Stats.initial).

Definition incr_successful (s : Stats.t) : Stats.t :=
  Stats.mk (Stats.total_books s) (Stats.successful s + 1) (Stats.failed s)
    (Stats.skipped s) (Stats.start_time s) (Stats.end_time s).

Definition incr_failed (s : Stats.t) : Stats.t :=
  Stats.mk (Stats.total_books s) (Stats.successful s) (Stats.failed s + 1)
    (Stats.skipped s) (Stats.start_time s) (Stats.end_time s).

Definition set_total_books (n : Z) (s : Stats.t) : Stats.t :=
  Stats.mk n (Stats.successful s) (Stats.failed s)
    (Stats.skipped s) (Stats.start_time s) (Stats.end_time s).

Definition set_start_time (t : Z) (s : Stats.t) : Stats.t :=
  Stats.mk (Stats.total_books s) (Stats.successful s) (Stats.failed s)
    (Stats.skipped s) (Some t) (Stats.end_time s).

Definition set_end_time (t : Z) (s : Stats.t) : Stats.t :=
  Stats.mk (Stats.total_books s) (Stats.successful s) (Stats.failed s)
    (Stats.skipped s) (Stats.start_time s) (Some t).

(** The [dict] [scrape_book] returns. *)
Record scraped := mkScraped {
  scraped_book_id : option string;
  scraped_name : string;
  scraped_is_new : bool }.

Definition scrape_book `{Network} `{Parser} `{Hashlib} `{Mongo}
    (book_url : string) : M (option scraped) :=
  html <- fetch_page book_url ;;
  match html with
  | Raise _ => update_stats incr_failed ;;; ret None
  | Ok html =>
      match parse_book_detail_page html book_url with
      | Some book =>
          let book :=
            Book.set_content_hash (Some (compute_content_hash book)) book in
          upserted <- upsert_book book ;;
          let (book_id, is_new) := upserted : option string * bool in
          update_stats incr_successful ;;;
          ret (Some (mkScraped book_id (Book.name book) is_new))
      | None => update_stats incr_failed ;;; ret None
      end
  end.

Definition scrape_catalog_page `{Network} `{Parser} (page_url : string)
  : M (list string * option string) :=
  html <- fetch_page page_url ;;
  match html with
  | Raise _ => ret ([], None)
  | Ok html =>
      match parse_book_list_page html page_url with
      | Raise _ => ret ([], None)
      | Ok book_urls =>
          match get_next_page_url html page_url with
          | Raise _ => ret ([], None)
          | Ok next_page_url => ret (book_urls, next_page_url)
          end
      end
  end.

(** [CrawlCheckpoint(checkpoint_id=.., ..)], timestamp from the default
    factory.  The counter it is given is never negative, so the [ge=0]
    validator accepts it. *)
Definition new_CrawlCheckpoint `{Clock} (checkpoint_id last_page_url : string)
    (last_book_url : option string) (total_books_crawled : Z)
    (status : CrawlStatus) : M CrawlCheckpoint.t :=
  now <- utcnow ;;
  ret (CrawlCheckpoint.mk checkpoint_id last_page_url last_book_url
         total_books_crawled now status None).

(** How the [while] loop of [scrape_all_books] ended: it ran to its end
    and left [current_page_url] as given, or the process was stopped. *)
Inductive walk :=
  | Finished (current_page_url : option string)
  | Interrupted.

(** The [while current_page_url:] loop.  [pages] is the number of catalog
    pages the process lives for: when it is used up the run is stopped at
    the top of the loop, as by a [KeyboardInterrupt], which
    [scrape_all_books] does not catch. *)
Fixpoint scrape_pages `{Clock} `{Network} `{Parser} `{Hashlib} `{Mongo}
    (pages : nat) (current_page_url : option string) : M walk :=
  match current_page_url with
  | None => ret (Finished current_page_url)
  | Some page_url =>
      if negb (truthy_str page_url) then ret (Finished current_page_url)
      else
        match pages with
        | O => ret Interrupted
        | S pages' =>
            page <- scrape_catalog_page page_url ;;
            let (book_urls, next_page_url) :=
              page : list string * option string in
            match book_urls with
            | [] => ret (Finished current_page_url)
            | _ :: _ =>
                (* Scrape all books from this page *)
                results <- mapM scrape_book book_urls ;;
                (* Count results *)
                s <- get_stats ;;
                update_stats
                  (set_total_books
                     (Stats.total_books s
                      + Z.of_nat (length (filter is_Some results)))) ;;;
                (* Save checkpoint after each page *)
                s <- get_stats ;;
                checkpoint <- new_CrawlCheckpoint "main_crawl" page_url
                  (last book_urls) (Stats.total_books s)
                  (if truthy_opt_str next_page_url then PARTIAL
                   else SUCCESS) ;;
                save_checkpoint checkpoint ;;;
                (* Move to next page *)
                emit Pause ;;;
                scrape_pages pages' next_page_url
            end
        end
  end.

Definition scrape_all_books `{Clock} `{Network} `{Parser} `{Hashlib} `{Mongo}
    (pages : nat) (base_url : string) (start_url : option string)
    (resume : bool) : M walk :=
  now <- utcnow ;;
  update_stats (set_start_time now) ;;;
  (* Determine starting point *)
  start_url <-
    (if resume then
       checkpoint <- get_checkpoint "main_crawl" ;;
       match checkpoint with
       | Some checkpoint =>
           update_stats
             (set_total_books
                (CrawlCheckpoint.total_books_crawled checkpoint)) ;;;
           ret (Some (CrawlCheckpoint.last_page_url checkpoint))
       | None => ret start_url
       end
     else ret start_url) ;;
  let start_url :=
    if truthy_opt_str start_url then default EmptyString start_url
    else base_url +:+ "/catalogue/page-1.html" in
  w <- scrape_pages pages (Some start_url) ;;
  match w with
  | Interrupted => ret Interrupted
  | Finished current_page_url =>
      (* Mark crawl as complete *)
      s <- get_stats ;;
      checkpoint <- new_CrawlCheckpoint "main_crawl"
        (or_str current_page_url start_url) None (Stats.total_books s)
        SUCCESS ;;
      save_checkpoint checkpoint ;;;
      now <- utcnow ;;
      update_stats (set_end_time now) ;;;
      ret (Finished current_page_url)
  end.

(** [crawler/main.py]: one process, a new scraper and one crawl. *)
Definition main `{Clock} `{Network} `{Parser} `{Hashlib} `{Mongo}
    (pages : nat) (base_url : string) (resume : bool) : M walk :=
  BookScraper_init ;;;
  scrape_all_books pages base_url None resume.

(** ** Vocabulary of the properties *)

(** An event of [compare_books] without [old_value]/[new_value]: the
    generic [content_change]. *)
Definition generic_event (c : ChangeLog.t) : bool :=
  match ChangeLog.change_type c, ChangeLog.old_value c, ChangeLog.new_value c with
  | CONTENT_CHANGE, None, None => true
  | _, _, _ => false
  end.

(** An event that carries the old and new value of one field. *)
Definition field_event (c : ChangeLog.t) : bool :=
  match ChangeLog.old_value c, ChangeLog.new_value c with
  | Some _, Some _ => true
  | _, _ => false
  end.

(** Whether one of the three fields [compare_books] looks at differs. *)
Definition tracked_differ (old_book new_book : Book.t) : bool :=
  float_ne (Book.price_incl_tax old_book) (Book.price_incl_tax new_book)
  || int_ne (Book.num_available old_book) (Book.num_available new_book)
  || int_ne (Book.num_reviews old_book) (Book.num_reviews new_book).

(** An event without the instant it was created at. *)
Definition event_content (c : ChangeLog.t)
  : string * string * ChangeType * option pydict * option pydict
    * option string :=
  (ChangeLog.book_id c, ChangeLog.book_name c, ChangeLog.change_type c,
   ChangeLog.old_value c, ChangeLog.new_value c, ChangeLog.description c).

(** The waits [tenacity] performed, oldest first. *)
Definition waits (l : list effect) : list Z :=
  omap (fun e => match e with Wait s => Some s | _ => None end) l.

Fixpoint strictly_increasing (l : list Z) : bool :=
  match l with
  | a :: ((b :: _) as l') => (a <? b) && strictly_increasing l'
  | _ => true
  end.

(** The failures section 4.1 of the specification calls non-retryable: a
    4xx status other than 429, or a malformed URL. *)
Definition spec_non_retryable (e : exn) : bool :=
  match e with
  | HTTPStatusError s => (400 <=? s) && (s <=? 499) && negb (s =? 429)
  | InvalidURL => true
  | _ => false
  end.

(** The trace of [w'] continues that of [w]. *)
Definition trace_grows (w w' : World) : Prop :=
  ∃ l, effects w' = effects w ++ l.

(** Section 4.1 read literally: the fetch ends after its first request. *)
Definition fails_immediately `{Network} (url : string) (w : World) : Prop :=
  effects (snd (fetch_page url w)) = effects w ++ [Get url].

(** ** Sample data *)

(** 50.0 and 45.0 as binary64 values. *)
Definition f50 : float := S754_finite false 7036874417766400 (-47).
Definition f45 : float := S754_finite false 6333186975989760 (-47).

Definition sample_book (price : float) (num_available num_reviews : Z)
    (rating : BookRating) (image_url : string) (content_hash : string)
  : Book.t :=
  Book.mk "Test Book" (Some "Old description") "Fiction" price price
    "In stock (10 available)" num_available num_reviews rating image_url
    "https://books.toscrape.com/test" 0 SUCCESS None (Some content_hash)
    (Some "507f1f77bcf86cd799439011").

(** The record of [tests/test_detector.py], and later extractions of it:
    cheaper, rated differently, and with everything but the hashed fields
    changed. *)
Definition old_record : Book.t :=
  sample_book f50 10 5 THREE "https://example.com/old.jpg" "old_hash_123".

Definition cheaper_record : Book.t :=
  sample_book f45 10 5 THREE "https://example.com/old.jpg" "new_hash_456".

Definition rerated_record : Book.t :=
  sample_book f50 10 5 FOUR "https://example.com/old.jpg" "new_hash_789".

Definition redecorated_record : Book.t :=
  Book.mk "Test Book" None "Poetry" f50 f50 "In stock (10 available)" 10 5
    THREE "https://example.com/new.jpg" "https://books.toscrape.com/moved"
    86400 PARTIAL (Some "<html></html>") None None.

Definition sample_clock : Clock := {| utcnow_at n := 1700000000 + Z.of_nat n |}.

Definition sample_mongo : Mongo :=
  {| new_object_id n := "oid-" +:+ str_of_int (Z.of_nat n) |}.

(** A stand-in for the encoders: any instance of the interface will do
    where only the shape of [compute_content_hash] matters. *)
Definition sample_hashlib : Hashlib :=
  {| json_encode_str s := "'" +:+ s +:+ "'";
     float_repr := format_2f;
     sha256_hexdigest s := "sha256(" +:+ s +:+ ")" |}.

(** A catalog of two pages: page 1 lists books a and b and links to
    page 2, which lists book c and is the last one.  The server answers
    every request with a body that names the page. *)
Definition page_1 : string := "https://books.toscrape.com/catalogue/page-1.html".
Definition page_2 : string := "https://books.toscrape.com/catalogue/page-2.html".
Definition book_a : string := "https://books.toscrape.com/catalogue/a_1/index.html".
Definition book_b : string := "https://books.toscrape.com/catalogue/b_2/index.html".
Definition book_c : string := "https://books.toscrape.com/catalogue/c_3/index.html".

Definition sample_parser : Parser :=
  {| parse_book_list_page html _ :=
       if String.eqb html page_1 then Ok [book_a; book_b]
       else if String.eqb html page_2 then Ok [book_c]
       else Ok [];
     get_next_page_url html _ :=
       if String.eqb html page_1 then Ok (Some page_2) else Ok None;
     parse_book_detail_page html source_url :=
       Some (Book.mk html None "Fiction" f50 f50 "In stock (10 available)"
               10 5 THREE EmptyString source_url 0 SUCCESS (Some html) None
               None) |}.

Definition site_up : Network :=
  {| client_get _ url := Response 200 url |}.

(** The same site with page 2 out of order. *)
Definition site_page_2_down : Network :=
  {| client_get _ url :=
       if String.eqb url page_2 then Response 503 EmptyString
       else Response 200 url |}.

(** A server that fails the first two requests and then answers. *)
Definition site_fails_twice : Network :=
  {| client_get history url :=
       if (length history <? 2)%nat then Response 503 EmptyString
       else Response 200 "<html>ok</html>" |}.

(** A server on which the page does not exist. *)
Definition site_not_found : Network :=
  {| client_get _ _ := Response 404 EmptyString |}.

(** A client that rejects the URL as malformed. *)
Definition site_invalid_url : Network :=
  {| client_get _ _ := ClientError InvalidURL |}.

(** The mocks of [tests/test_scraper.py]: a client whose [get] raises an
    [httpx.HTTPError], and one whose [get] raises a plain [Exception]. *)
Definition client_http_error : Network :=
  {| client_get _ _ := ClientError NetworkError |}.

Definition client_exception : Network :=
  {| client_get _ _ := ClientError (OtherException "Network error") |}.

Definition base_url : string := "https://books.toscrape.com".

(** A first process, stopped after the checkpoint of page 1. *)
Definition stopped_after_page_1 : walk * World :=
  @main sample_clock site_up sample_parser sample_hashlib sample_mongo
    1 base_url false empty_world.

(** A second process on what the first one left, with [--resume]; its
    trace is kept apart from that of the first. *)
Definition resumed_run : walk * World :=
  @main sample_clock site_up sample_parser sample_hashlib sample_mongo
    10 base_url true (with_effects (fun _ => []) (snd stopped_after_page_1)).

(** A whole run on the site whose page 2 cannot be fetched. *)
Definition run_page_2_down : walk * World :=
  @main sample_clock site_page_2_down sample_parser sample_hashlib
    sample_mongo 10 base_url false empty_world.

(** * The rest of the code *)

(** ** utilities/database.py, the operations of the change detector *)

Definition get_book_by_url (source_url : string) : M (option Book.t) :=
  fun w => (db_books w !! source_url, w).

(** [count_books()] without a query: the size of the collection. *)
Definition count_books : M Z :=
  fun w => (Z.of_nat (size (db_books w)), w).

Definition set_change_id (i : option string) (c : ChangeLog.t) : ChangeLog.t :=
  ChangeLog.mk (ChangeLog.book_id c) (ChangeLog.book_name c)
    (ChangeLog.change_type c) (ChangeLog.change_timestamp c)
    (ChangeLog.old_value c) (ChangeLog.new_value c) (ChangeLog.description c)
    i.

(** [insert_change]: [insert_one] gives the document a new [_id] and
    appends it to the [changelog] collection, which is passed along as
    the list of its documents, oldest first. *)
Definition insert_change `{Mongo} (change : ChangeLog.t)
    (changelog : list ChangeLog.t) : M (string * list ChangeLog.t) :=
  fun w =>
    let oid := new_object_id (db_inserted w) in
    ((oid, changelog ++ [set_change_id (Some oid) change]),
     mkWorld (clock_reads w) (effects w) (db_books w) (db_checkpoints w)
       (S (db_inserted w)) (stats w)).

(** ** scheduler/detector.py, the crawl of the detector *)

Module DetectorStats.
Record t := mk {
  new_books : Z;
  price_changes : Z;
  availability_changes : Z;
  content_changes : Z;
  unchanged : Z }.

Definition initial : t := mk 0 0 0 0 0.
End DetectorStats.

Module ChangeDetector.
Record t := mk {
  changes : list ChangeLog.t;
  stats : DetectorStats.t }.

(** [ChangeDetector.__init__]. *)
Definition initial : t := mk [] DetectorStats.initial.
End ChangeDetector.

Definition incr_new_books (s : DetectorStats.t) : DetectorStats.t :=
  DetectorStats.mk (DetectorStats.new_books s + 1)
    (DetectorStats.price_changes s) (DetectorStats.availability_changes s)
    (DetectorStats.content_changes s) (DetectorStats.unchanged s).

Definition incr_unchanged (s : DetectorStats.t) : DetectorStats.t :=
  DetectorStats.mk (DetectorStats.new_books s)
    (DetectorStats.price_changes s) (DetectorStats.availability_changes s)
    (DetectorStats.content_changes s) (DetectorStats.unchanged s + 1).

(** One turn of the loop [for change in book_changes] of [_check_book]. *)
Definition count_change (s : DetectorStats.t) (change : ChangeLog.t)
  : DetectorStats.t :=
  match ChangeLog.change_type change with
  | PRICE_CHANGE =>
      DetectorStats.mk (DetectorStats.new_books s)
        (DetectorStats.price_changes s + 1)
        (DetectorStats.availability_changes s)
        (DetectorStats.content_changes s) (DetectorStats.unchanged s)
  | AVAILABILITY_CHANGE =>
      DetectorStats.mk (DetectorStats.new_books s)
        (DetectorStats.price_changes s)
        (DetectorStats.availability_changes s + 1)
        (DetectorStats.content_changes s) (DetectorStats.unchanged s)
  | CONTENT_CHANGE =>
      DetectorStats.mk (DetectorStats.new_books s)
        (DetectorStats.price_changes s)
        (DetectorStats.availability_changes s)
        (DetectorStats.content_changes s + 1) (DetectorStats.unchanged s)
  | _ => s
  end.

Definition set_crawl_timestamp (t : Z) (b : Book.t) : Book.t :=
  Book.mk (Book.name b) (Book.description b) (Book.category b)
    (Book.price_excl_tax b) (Book.price_incl_tax b) (Book.availability b)
    (Book.num_available b) (Book.num_reviews b) (Book.rating b)
    (Book.image_url b) (Book.source_url b) t (Book.crawl_status b)
    (Book.raw_html b) (Book.content_hash b) (Book.id b).

(** [_check_book].  Every exception raised in its body is caught and
    logged, which leaves the detector as it was; the detector comes back
    as the result.  A [book_id] of [None] is refused by the validation of
    [ChangeLog], an exception like the others. *)
Definition _check_book `{Clock} `{Network} `{Parser} `{Hashlib} `{Mongo}
    (book_url : string) (self : ChangeDetector.t) : M ChangeDetector.t :=
  response <- http_get book_url ;;
  match response with
  | ClientError _ => ret self
  | Response status_code html =>
      match raise_for_status status_code with
      | Raise _ => ret self
      | Ok _ =>
          match parse_book_detail_page html book_url with
          | None => ret self
          | Some new_book =>
              let new_book :=
                Book.set_content_hash (Some (compute_content_hash new_book))
                  new_book in
              old_book <- get_book_by_url book_url ;;
              match old_book with
              | None =>
                  upserted <- upsert_book new_book ;;
                  match fst (upserted : option string * bool) with
                  | None => ret self
                  | Some book_id =>
                      change <- new_ChangeLog book_id (Book.name new_book)
                        NEW_BOOK None
                        (Some [("name", VStr (Book.name new_book));
                               ("price", VFloat (Book.price_incl_tax new_book));
                               ("category", VStr (Book.category new_book))])
                        (Some ("New book added: " +:+ Book.name new_book)) ;;
                      ret (ChangeDetector.mk
                             (ChangeDetector.changes self ++ [change])
                             (incr_new_books (ChangeDetector.stats self)))
                  end
              | Some old_book =>
                  if bool_decide (Book.content_hash old_book
                                  ≠ Book.content_hash new_book)
                  then
                    book_changes <- compare_books old_book new_book ;;
                    upsert_book new_book ;;;
                    ret (ChangeDetector.mk
                           (ChangeDetector.changes self ++ book_changes)
                           (foldl count_change (ChangeDetector.stats self)
                              book_changes))
                  else
                    now <- utcnow ;;
                    upsert_book (set_crawl_timestamp now new_book) ;;;
                    ret (ChangeDetector.mk (ChangeDetector.changes self)
                           (incr_unchanged (ChangeDetector.stats self)))
              end
          end
      end
  end.

(** Runs [f] on every element in order, threading a state through. *)
Fixpoint foldM {A S} (f : A -> S -> M S) (l : list A) (s : S) : M S :=
  match l with
  | [] => ret s
  | a :: l' => s' <- f a s ;; foldM f l' s'
  end.

(** The [while current_page_url:] loop of [_crawl_and_compare]: any
    exception in the body of an iteration ends the loop.  As in
    [scrape_pages], [pages] is the number of catalog pages the process
    lives for; the boolean tells whether the loop ran to its end. *)
Fixpoint crawl_and_compare_pages `{Clock} `{Network} `{Parser} `{Hashlib}
    `{Mongo} (pages : nat) (current_page_url : option string)
    (self : ChangeDetector.t) : M (bool * ChangeDetector.t) :=
  match current_page_url with
  | None => ret (true, self)
  | Some page_url =>
      if negb (truthy_str page_url) then ret (true, self)
      else
        match pages with
        | O => ret (false, self)
        | S pages' =>
            response <- http_get page_url ;;
            match response with
            | ClientError _ => ret (true, self)
            | Response status_code html =>
                match raise_for_status status_code with
                | Raise _ => ret (true, self)
                | Ok _ =>
                    match parse_book_list_page html page_url with
                    | Raise _ => ret (true, self)
                    | Ok book_urls =>
                        self <- foldM _check_book book_urls self ;;
                        match get_next_page_url html page_url with
                        | Raise _ => ret (true, self)
                        | Ok next_page_url =>
                            emit Pause ;;;
                            crawl_and_compare_pages pages' next_page_url self
                        end
                    end
                end
            end
        end
  end.

Definition _crawl_and_compare `{Clock} `{Network} `{Parser} `{Hashlib}
    `{Mongo} (pages : nat) (self : ChangeDetector.t)
  : M (bool * ChangeDetector.t) :=
  let base_url := "https://books.toscrape.com" in
  let current_page_url := base_url +:+ "/catalogue/page-1.html" in
  crawl_and_compare_pages pages (Some current_page_url) self.

(** [_log_changes]: the changes go to the [changelog] collection one by
    one, in the order they were detected. *)
Definition _log_changes `{Mongo} (self : ChangeDetector.t)
    (changelog : list ChangeLog.t) : M (list ChangeLog.t) :=
  foldM (fun change changelog =>
           inserted <- insert_change change changelog ;;
           ret (snd (inserted : string * list ChangeLog.t)))
        (ChangeDetector.changes self) changelog.

(** The summary [detect_changes] returns; the duration is kept as the
    difference of the two clock readings. *)
Module Summary.
Record t := mk {
  detection_time : Z;
  duration : Z;
  initial_book_count : Z;
  final_book_count : Z;
  new_books : Z;
  price_changes : Z;
  availability_changes : Z;
  content_changes : Z;
  unchanged : Z;
  total_changes : Z }.
End Summary.

(** [detect_changes]: the result is the summary, the detector and the
    [changelog] collection; no summary when the process was stopped in
    the crawl. *)
Definition detect_changes `{Clock} `{Network} `{Parser} `{Hashlib} `{Mongo}
    (pages : nat) (self : ChangeDetector.t) (changelog : list ChangeLog.t)
  : M (option Summary.t * ChangeDetector.t * list ChangeLog.t) :=
  start_time <- utcnow ;;
  initial_count <- count_books ;;
  crawled <- _crawl_and_compare pages self ;;
  let (finished, self) := crawled : bool * ChangeDetector.t in
  if negb finished then ret (None, self, changelog)
  else
    final_count <- count_books ;;
    changelog <- _log_changes self changelog ;;
    end_time <- utcnow ;;
    let s := ChangeDetector.stats self in
    ret (Some (Summary.mk start_time (end_time - start_time) initial_count
                 final_count (DetectorStats.new_books s)
                 (DetectorStats.price_changes s)
                 (DetectorStats.availability_changes s)
                 (DetectorStats.content_changes s)
                 (DetectorStats.unchanged s)
                 (Z.of_nat (length (ChangeDetector.changes self)))),
         self, changelog).

(** ** utilities/helpers.py *)

(** [key in rating_class] on [str]: [key] occurs somewhere in
    [rating_class].  The keys are ASCII, so an occurrence among the bytes
    of the UTF-8 text is an occurrence among its characters. *)
Fixpoint str_in (key rating_class : string) : bool :=
  String.prefix key rating_class
  || match rating_class with
     | EmptyString => false
     | String _ rest => str_in key rest
     end.

(** The dict literal of [normalize_rating], in its insertion order, the
    order in which [for key in rating_map] visits it. *)
Definition rating_map : list (string * string) :=
  [ ("One", "One"); ("Two", "Two"); ("Three", "Three"); ("Four", "Four");
    ("Five", "Five") ].

(** [for key in rating_map: if key in rating_class: return rating_map[key]]
    and [return None] after the loop. *)
Fixpoint normalize_rating_loop (items : list (string * string))
    (rating_class : string) : option string :=
  match items with
  | [] => None
  | (key, value) :: items' =>
      if str_in key rating_class then Some value
      else normalize_rating_loop items' rating_class
  end.

Definition normalize_rating (rating_class : string) : option string :=
  normalize_rating_loop rating_map rating_class.

(** [clean_text] works on the characters of a [str], and on what [\s] and
    [str.strip] take for whitespace among them (the same test in both);
    the section leaves the character type and the test open. *)
Section Text.
Context {char : Type} (isspace : char → bool) (space : char).

(** [re.sub(r'\s+', ' ', text)]: every maximal run of whitespace becomes
    one space.  [in_run] says that the previous character was whitespace,
    so that the run has been replaced already. *)
Fixpoint re_sub_spaces (in_run : bool) (text : list char) : list char :=
  match text with
  | [] => []
  | c :: text' =>
      if isspace c then
        if in_run then re_sub_spaces true text'
        else space :: re_sub_spaces true text'
      else c :: re_sub_spaces false text'
  end.

Fixpoint lstrip (text : list char) : list char :=
  match text with
  | [] => []
  | c :: text' => if isspace c then lstrip text' else text
  end.

Definition rstrip (text : list char) : list char :=
  reverse (lstrip (reverse text)).

(** [text.strip()] *)
Definition strip (text : list char) : list char := rstrip (lstrip text).

Definition clean_text (text : option (list char)) : list char :=
  match text with
  | None => []
  | Some [] => []
  | Some text => strip (re_sub_spaces false text)
  end.

(** No whitespace next to whitespace; [prev] says that the character
    before the text is whitespace. *)
Fixpoint spaced (prev : bool) (text : list char) : Prop :=
  match text with
  | [] => True
  | c :: text' =>
      if isspace c then prev = false ∧ spaced true text'
      else spaced false text'
  end.

(** The whitespace of the text is made of [space] only. *)
Definition plain (text : list char) : Prop :=
  Forall (fun c => isspace c = true → c = space) text.

(** No whitespace at either end. *)
Definition trimmed (text : list char) : Prop :=
  (∀ c, head text = Some c → isspace c = false)
  ∧ (∀ c, last text = Some c → isspace c = false).
End Text.

(** ** crawler/parser.py *)

(** [_extract_rating], from the class list of the first
    [<p class="star-rating ..">] of the page on ([rating_p.get('class',
    [])], [None] when the page has no such tag): the first class that
    [normalize_rating] knows, and [BookRating.THREE] when there is none. *)
Fixpoint _extract_rating_loop (classes : list string) : string :=
  match classes with
  | [] => rating_value THREE
  | cls :: classes' =>
      match normalize_rating cls with
      | Some rating =>
          if truthy_str rating then rating else _extract_rating_loop classes'
      | None => _extract_rating_loop classes'
      end
  end.

Definition _extract_rating (rating_p : option (list string)) : string :=
  match rating_p with
  | Some classes => _extract_rating_loop classes
  | None => rating_value THREE
  end.

(** ** api/auth.py *)

(** What a route dependency does: return a value or raise
    [HTTPException(status_code, detail)]. *)
Inductive http (A : Type) :=
  | Returns (a : A)
  | HTTPException (status_code : Z) (detail : string).
Arguments Returns {A} a.
Arguments HTTPException {A} status_code detail.

Definition HTTP_403_FORBIDDEN : Z := 403.

(** [verify_api_key]: [api_key] is the [X-API-Key] header, [None] when
    the request has none ([auto_error=False]); [settings_api_key] is
    [settings.api_key]. *)
Definition verify_api_key (settings_api_key : string)
    (api_key : option string) : http string :=
  match api_key with
  | None =>
      HTTPException HTTP_403_FORBIDDEN
        "API key is missing. Include 'X-API-Key' header."
  | Some key =>
      if negb (truthy_str key) then
        HTTPException HTTP_403_FORBIDDEN
          "API key is missing. Include 'X-API-Key' header."
      else if negb (String.eqb key settings_api_key) then
        HTTPException HTTP_403_FORBIDDEN "Invalid API key"
      else Returns key
  end.

(** ** Vocabulary of the further properties *)

(** The number of events the counters of a detector account for. *)
Definition tally (s : DetectorStats.t) : Z :=
  DetectorStats.new_books s + DetectorStats.price_changes s
  + DetectorStats.availability_changes s + DetectorStats.content_changes s.

(** The detector's list of changes and its counters agree. *)
Definition tallied (self : ChangeDetector.t) : Prop :=
  Z.of_nat (length (ChangeDetector.changes self))
  = tally (ChangeDetector.stats self).

(** What the detail page at [book_url] shows when it is requested in
    state [w]: the record extracted from it, with its content hash; nothing
    when the request or the extraction fails. *)
Definition extraction `{Network} `{Parser} `{Hashlib} (book_url : string)
    (w : World) : option Book.t :=
  match client_get (requests (effects w)) book_url with
  | ClientError _ => None
  | Response status_code html =>
      match raise_for_status status_code with
      | Raise _ => None
      | Ok _ =>
          match parse_book_detail_page html book_url with
          | None => None
          | Some book =>
              Some (Book.set_content_hash (Some (compute_content_hash book))
                      book)
          end
      end
  end.

(** What [parse_book_detail_page] does with its second argument: it is
    the [source_url] of the record it builds. *)
Definition keeps_source_url (parser : Parser) : Prop :=
  ∀ html url book,
    @parse_book_detail_page parser html url = Some book →
    Book.source_url book = url.

(** Whether a reply of the server makes the request fail: the client
    raised, or [raise_for_status] does. *)
Definition reply_fails (r : reply) : bool :=
  match r with
  | ClientError _ => true
  | Response status_code _ =>
      match raise_for_status status_code with
      | Ok _ => false
      | Raise _ => true
      end
  end.

(** The counter a run starts from: the total of the checkpoint when it
    resumes from one, zero otherwise. *)
Definition seeded_total (resume : bool) (w : World) : Z :=
  if resume then
    match db_checkpoints w !! "main_crawl" with
    | Some checkpoint => CrawlCheckpoint.total_books_crawled checkpoint
    | None => 0
    end
  else 0.

(** The pauses between catalog pages in a trace. *)
Definition pauses (l : list effect) : nat :=
  length (omap (fun e => match e with Pause => Some tt | _ => None end) l).

(** The server answers every request for [url] with the same good page,
    on which the parser finds the books [book_urls], at least one, and
    the link [next_page_url]. *)
Definition healthy_page `{Network} `{Parser} (url : string)
    (book_urls : list string) (next_page_url : option string) : Prop :=
  truthy_str url = true
  ∧ book_urls ≠ []
  ∧ ∃ html,
      (∀ history, ∃ status_code,
         client_get history url = Response status_code html
         ∧ raise_for_status status_code = Ok tt)
      ∧ parse_book_list_page html url = Ok book_urls
      ∧ get_next_page_url html url = Ok next_page_url.

(** A catalog of healthy pages, each linking to the next, the last one
    to none. *)
Fixpoint healthy_catalog `{Network} `{Parser} (url : string)
    (rest : list string) : Prop :=
  match rest with
  | [] => ∃ book_urls next_page_url,
            healthy_page url book_urls next_page_url
            ∧ truthy_opt_str next_page_url = false
  | next :: rest' =>
      (∃ book_urls, healthy_page url book_urls (Some next))
      ∧ healthy_catalog next rest'
  end.

(** The trace of [w'] continues that of [w] without a pause. *)
Definition grows_quietly (w w' : World) : Prop :=
  ∃ l, effects w' = effects w ++ l ∧ pauses l = 0%nat.

(** [key] occurs in [text]. *)
Definition occurs (key text : string) : Prop :=
  ∃ before after, text = before +:+ key +:+ after.

(** ** Sample data of the further properties *)

(** The sample site after every page of it has changed. *)
Definition site_changed : Network :=
  {| client_get _ url := Response 200 (url +:+ "?v=2") |}.

(** The check of book a on an empty database, by a new detector. *)
Definition checked_book_a : ChangeDetector.t * World :=
  @_check_book sample_clock site_up sample_parser sample_hashlib sample_mongo
    book_a ChangeDetector.initial empty_world.

(** A first detection on the sample site, from an empty database. *)
Definition first_detection
  : option Summary.t * ChangeDetector.t * list ChangeLog.t * World :=
  @detect_changes sample_clock site_up sample_parser sample_hashlib
    sample_mongo 10 ChangeDetector.initial [] empty_world.



(** [str.isspace] on the ASCII characters: tab to carriage return, the
    four separators and the space. *)
Definition ascii_isspace (c : Ascii.ascii) : bool :=
  let n := Ascii.nat_of_ascii c in
  ((9 <=? n) && (n <=? 13) || (28 <=? n) && (n <=? 32))%nat.

Definition ascii_space : Ascii.ascii := Ascii.ascii_of_nat 32.

(** A title as a page has it, between newlines and indentation. *)
Definition untidy_title : list Ascii.ascii :=
  String.list_ascii_of_string
    (String (Ascii.ascii_of_nat 10)
       ("   A Light in  the" +:+ String (Ascii.ascii_of_nat 9) "Attic  ")).

(** * Properties *)

(** ** The tests of the repository, replayed on the embedding *)

Example test_compare_books_price_change :
  map (fun c => (ChangeLog.change_type c, ChangeLog.description c))
      (fst (@compare_books sample_clock old_record cheaper_record empty_world))
  = [(PRICE_CHANGE, Some "Price changed from £50.00 to £45.00")].
Proof. reflexivity. Qed.

Example test_compare_books_no_change :
  fst (@compare_books sample_clock old_record old_record empty_world) = [].
Proof. reflexivity. Qed.

Example test_compare_books_multiple_changes :
  map ChangeLog.change_type
      (fst (@compare_books sample_clock old_record
              (sample_book f45 5 5 THREE "https://example.com/old.jpg"
                 "different_hash")
              empty_world))
  = [PRICE_CHANGE; AVAILABILITY_CHANGE].
Proof. reflexivity. Qed.

Example test_compare_books_reviews_change :
  map (fun c => (ChangeLog.change_type c, ChangeLog.description c))
      (fst (@compare_books sample_clock old_record
              (sample_book f50 10 10 THREE "https://example.com/old.jpg"
                 "different_hash")
              empty_world))
  = [(CONTENT_CHANGE, Some "Reviews changed from 5 to 10")].
Proof. reflexivity. Qed.

Example test_fetch_page_retry_on_failure :
  fst (@fetch_page client_http_error "https://example.com" empty_world)
  = Raise NetworkError
  ∧ length (requests (effects
       (snd (@fetch_page client_http_error "https://example.com"
               empty_world)))) = 3%nat.
Proof. split; reflexivity. Qed.

Example test_scrape_catalog_page_error :
  fst (@scrape_catalog_page client_exception sample_parser
         "https://example.com" empty_world) = ([], None).
Proof. reflexivity. Qed.

Example wait_exponential_schedule :
  map (wait_exponential 1 2 10) [1; 2; 3; 4; 5; 6] = [2; 2; 4; 8; 10; 10].
Proof. reflexivity. Qed.

(** ** The change detector *)

Section Detector.
Context `{Clock}.

(** What [compare_books] returns, in each of its three regimes: a field
    differs, only the hash differs, nothing differs. *)
Lemma compare_books_shape (old_book new_book : Book.t) (w : World) :
  let changes := fst (compare_books old_book new_book w) in
  (tracked_differ old_book new_book = true
   ∧ changes ≠ []
   ∧ Forall (fun c => field_event c = true ∧ generic_event c = false) changes)
  ∨ (tracked_differ old_book new_book = false
     ∧ Book.content_hash old_book ≠ Book.content_hash new_book
     ∧ ∃ g, changes = [g]
            ∧ ChangeLog.change_type g = CONTENT_CHANGE
            ∧ ChangeLog.old_value g = None
            ∧ ChangeLog.new_value g = None)
  ∨ (tracked_differ old_book new_book = false
     ∧ Book.content_hash old_book = Book.content_hash new_book
     ∧ changes = []).
Proof.
  unfold tracked_differ, compare_books, new_ChangeLog, utcnow, bind, ret.
  destruct (float_ne (Book.price_incl_tax old_book) _);
    destruct (int_ne (Book.num_available old_book) _);
    destruct (int_ne (Book.num_reviews old_book) _); simpl;
    try (left; repeat split;
         [ discriminate | repeat (constructor; [ by split | ]); constructor ]).
  destruct (decide (Book.content_hash old_book = Book.content_hash new_book))
    as [Heq | Hne].
  - right; right. rewrite bool_decide_eq_false_2 by tauto. by simpl.
  - right; left. rewrite bool_decide_eq_true_2 by done. simpl. eauto 10.
Qed.

(** Every event comes from one of the four branches of [compare_books]. *)
Lemma compare_books_kinds (old_book new_book : Book.t) (w : World) :
  Forall (fun c => ChangeLog.change_type c = PRICE_CHANGE
                   ∨ ChangeLog.change_type c = AVAILABILITY_CHANGE
                   ∨ ChangeLog.change_type c = CONTENT_CHANGE)
         (fst (compare_books old_book new_book w))
  ∧ (length (fst (compare_books old_book new_book w)) ≤ 3)%nat.
Proof.
  unfold compare_books, new_ChangeLog, utcnow, bind, ret.
  destruct (float_ne (Book.price_incl_tax old_book) _);
    destruct (int_ne (Book.num_available old_book) _);
    destruct (int_ne (Book.num_reviews old_book) _); simpl;
    try (split; [ repeat (constructor; [ tauto | ]); constructor | lia ]).
  destruct (bool_decide _); simpl;
    (split; [ repeat (constructor; [ tauto | ]); constructor | lia ]).
Qed.

(** Finds in a list given in full the event a goal asks for. *)
Ltac pick_event :=
  eexists;
  first
    [ solve [ split; [ apply list_elem_of_here | by repeat split ] ]
    | solve [ split; [ apply list_elem_of_further, list_elem_of_here
                     | by repeat split ] ]
    | solve [ split; [ do 2 apply list_elem_of_further;
                       apply list_elem_of_here
                     | by repeat split ] ] ].

(** A field that differs gets its own event, with the old and the new
    value of that field. *)
Lemma compare_books_fields (old_book new_book : Book.t) (w : World) :
  let changes := fst (compare_books old_book new_book w) in
  (float_ne (Book.price_incl_tax old_book) (Book.price_incl_tax new_book) = true →
   ∃ c, c ∈ changes ∧ ChangeLog.change_type c = PRICE_CHANGE
        ∧ ChangeLog.old_value c
          = Some [("price_incl_tax", VFloat (Book.price_incl_tax old_book))]
        ∧ ChangeLog.new_value c
          = Some [("price_incl_tax", VFloat (Book.price_incl_tax new_book))])
  ∧ (int_ne (Book.num_available old_book) (Book.num_available new_book) = true →
     ∃ c, c ∈ changes ∧ ChangeLog.change_type c = AVAILABILITY_CHANGE
          ∧ ChangeLog.old_value c
            = Some [("num_available", VInt (Book.num_available old_book));
                    ("availability", VStr (Book.availability old_book))]
          ∧ ChangeLog.new_value c
            = Some [("num_available", VInt (Book.num_available new_book));
                    ("availability", VStr (Book.availability new_book))])
  ∧ (int_ne (Book.num_reviews old_book) (Book.num_reviews new_book) = true →
     ∃ c, c ∈ changes ∧ ChangeLog.change_type c = CONTENT_CHANGE
          ∧ ChangeLog.old_value c
            = Some [("num_reviews", VInt (Book.num_reviews old_book))]
          ∧ ChangeLog.new_value c
            = Some [("num_reviews", VInt (Book.num_reviews new_book))]).
Proof.
  unfold compare_books, new_ChangeLog, utcnow, bind, ret.
  destruct (float_ne (Book.price_incl_tax old_book) _);
    destruct (int_ne (Book.num_available old_book) _);
    destruct (int_ne (Book.num_reviews old_book) _); simpl;
    repeat split; intros; try discriminate; pick_event.
Qed.

(** C1. When the hashes differ and the three compared fields
    ([price_incl_tax], [num_available], [num_reviews]) are equal,
    [compare_books] returns exactly one event, a [content_change] without
    [old_value] and [new_value]; and whatever the two records are, the
    list it returns never holds such a generic event next to an event for
    a field. *)
Theorem compare_books_generic_only (old_book new_book : Book.t) (w : World) :
  (Book.content_hash old_book ≠ Book.content_hash new_book →
   SFeqb (Book.price_incl_tax old_book) (Book.price_incl_tax new_book) = true →
   Book.num_available old_book = Book.num_available new_book →
   Book.num_reviews old_book = Book.num_reviews new_book →
   ∃ g, fst (compare_books old_book new_book w) = [g]
        ∧ ChangeLog.change_type g = CONTENT_CHANGE
        ∧ ChangeLog.old_value g = None
        ∧ ChangeLog.new_value g = None)
  ∧ (∀ g f, g ∈ fst (compare_books old_book new_book w) →
            f ∈ fst (compare_books old_book new_book w) →
            generic_event g = true → field_event f = false).
Proof.
  pose proof (compare_books_shape old_book new_book w) as Hshape.
  cbv zeta in Hshape. split.
  - intros Hhash Hprice Havail Hrev.
    assert (tracked_differ old_book new_book = false) as Hsame.
    { unfold tracked_differ, float_ne, int_ne.
      rewrite Hprice, Havail, Hrev, !Z.eqb_refl. reflexivity. }
    destruct Hshape as [(Hd & _) | [(_ & _ & Hg) | (_ & Heq & _)]].
    + congruence.
    + exact Hg.
    + contradiction.
  - intros g f Hg Hf Hgen.
    destruct Hshape as [(_ & _ & Hall) | [(_ & _ & g' & Hr & Ht & Ho & Hn)
                                         | (_ & _ & Hr)]].
    + rewrite Forall_forall in Hall. destruct (Hall g Hg). congruence.
    + rewrite Hr in Hf. apply list_elem_of_singleton in Hf. subst f.
      unfold field_event. rewrite Ho. reflexivity.
    + rewrite Hr in Hg. by apply not_elem_of_nil in Hg.
Qed.

(** C5. An old record at 50.00 with 10 available and 5 reviews against
    a new one at 45.00 with the same counts, hashes differing: exactly one
    event, a [price_change] from 50.00 to 45.00. *)
Theorem compare_books_price_drop (old_book new_book : Book.t) (w : World) :
  Book.price_incl_tax old_book = f50 →
  Book.num_available old_book = 10 →
  Book.num_reviews old_book = 5 →
  Book.price_incl_tax new_book = f45 →
  Book.num_available new_book = 10 →
  Book.num_reviews new_book = 5 →
  Book.content_hash old_book ≠ Book.content_hash new_book →
  ∃ c, fst (compare_books old_book new_book w) = [c]
       ∧ ChangeLog.change_type c = PRICE_CHANGE
       ∧ ChangeLog.old_value c = Some [("price_incl_tax", VFloat f50)]
       ∧ ChangeLog.new_value c = Some [("price_incl_tax", VFloat f45)]
       ∧ ChangeLog.description c
         = Some "Price changed from £50.00 to £45.00".
Proof.
  intros Hp Ha Hr Hp' Ha' Hr' _.
  unfold compare_books, new_ChangeLog, utcnow, bind, ret.
  rewrite Hp, Ha, Hr, Hp', Ha', Hr'. simpl.
  eexists. repeat split.
Qed.

(** C9. When the hashes differ the list is not empty: every one of the
    three fields that differs has its own event in it, carrying the old
    and new value of that field, and when none of them differs the list
    is the single generic [content_change]. *)
Theorem compare_books_nonempty (old_book new_book : Book.t) (w : World) :
  Book.content_hash old_book ≠ Book.content_hash new_book →
  fst (compare_books old_book new_book w) ≠ []
  ∧ (tracked_differ old_book new_book = true →
     ∃ c, c ∈ fst (compare_books old_book new_book w)
          ∧ field_event c = true)
  ∧ (float_ne (Book.price_incl_tax old_book) (Book.price_incl_tax new_book)
     = true →
     ∃ c, c ∈ fst (compare_books old_book new_book w)
          ∧ ChangeLog.change_type c = PRICE_CHANGE
          ∧ ChangeLog.old_value c
            = Some [("price_incl_tax", VFloat (Book.price_incl_tax old_book))]
          ∧ ChangeLog.new_value c
            = Some [("price_incl_tax", VFloat (Book.price_incl_tax new_book))])
  ∧ (int_ne (Book.num_available old_book) (Book.num_available new_book)
     = true →
     ∃ c, c ∈ fst (compare_books old_book new_book w)
          ∧ ChangeLog.change_type c = AVAILABILITY_CHANGE
          ∧ ChangeLog.old_value c
            = Some [("num_available", VInt (Book.num_available old_book));
                    ("availability", VStr (Book.availability old_book))]
          ∧ ChangeLog.new_value c
            = Some [("num_available", VInt (Book.num_available new_book));
                    ("availability", VStr (Book.availability new_book))])
  ∧ (int_ne (Book.num_reviews old_book) (Book.num_reviews new_book) = true →
     ∃ c, c ∈ fst (compare_books old_book new_book w)
          ∧ ChangeLog.change_type c = CONTENT_CHANGE
          ∧ ChangeLog.old_value c
            = Some [("num_reviews", VInt (Book.num_reviews old_book))]
          ∧ ChangeLog.new_value c
            = Some [("num_reviews", VInt (Book.num_reviews new_book))])
  ∧ (tracked_differ old_book new_book = false →
     ∃ g, fst (compare_books old_book new_book w) = [g]
          ∧ generic_event g = true).
Proof.
  intros Hhash.
  pose proof (compare_books_fields old_book new_book w) as Hfields.
  cbv zeta in Hfields. destruct Hfields as (Hprice & Havail & Hrev).
  destruct (compare_books_shape old_book new_book w)
    as [(Hd & Hne & Hall) | [(Hd & _ & g & Hr & Ht & Ho & Hn) | (_ & Heq & _)]].
  - split; [ exact Hne | ].
    split; [ | split; [ exact Hprice | split; [ exact Havail | split;
               [ exact Hrev | congruence ] ] ] ].
    intros _.
    destruct (fst (compare_books old_book new_book w)) as [ | c l ];
      [ done | ].
    exists c. split; [ apply list_elem_of_here | ].
    by apply Forall_cons in Hall as [[? _] _].
  - split; [ rewrite Hr; discriminate | ].
    split; [ congruence | split; [ exact Hprice | split; [ exact Havail
           | split; [ exact Hrev | ] ] ] ].
    intros _. exists g. split; [ exact Hr | ].
    unfold generic_event. by rewrite Ht, Ho, Hn.
  - contradiction.
Qed.

(** C10. Every event of [compare_books] is a [price_change], an
    [availability_change] or a [content_change], never a [new_book] or a
    [deleted]; and there are at most 4 of them. *)
Theorem compare_books_event_kinds (old_book new_book : Book.t) (w : World) :
  (∀ c, c ∈ fst (compare_books old_book new_book w) →
        (ChangeLog.change_type c = PRICE_CHANGE
         ∨ ChangeLog.change_type c = AVAILABILITY_CHANGE
         ∨ ChangeLog.change_type c = CONTENT_CHANGE)
        ∧ ChangeLog.change_type c ≠ NEW_BOOK
        ∧ ChangeLog.change_type c ≠ DELETED)
  ∧ (length (fst (compare_books old_book new_book w)) ≤ 4)%nat.
Proof.
  destruct (compare_books_kinds old_book new_book w) as [Hall Hlen].
  split; [ | lia ].
  intros c Hc. rewrite Forall_forall in Hall.
  specialize (Hall c Hc). split; [ exact Hall | ].
  destruct Hall as [-> | [-> | ->]]; split; discriminate.
Qed.

End Detector.

(** The events of [compare_books] do not depend on the state it runs in,
    up to their timestamps, and it leaves the database as it found it. *)
Lemma compare_books_reads_only_clock `{Clock} (old_book new_book : Book.t)
    (w : World) :
  let w' := snd (compare_books old_book new_book w) in
  db_books w' = db_books w
  ∧ db_checkpoints w' = db_checkpoints w
  ∧ db_inserted w' = db_inserted w
  ∧ effects w' = effects w
  ∧ stats w' = stats w.
Proof.
  unfold compare_books, new_ChangeLog, utcnow, bind, ret.
  destruct (float_ne (Book.price_incl_tax old_book) _);
    destruct (int_ne (Book.num_available old_book) _);
    destruct (int_ne (Book.num_reviews old_book) _); simpl;
    try done.
  destruct (bool_decide _); done.
Qed.

(** C8. Two runs of [compare_books] on the same two records give the
    same events (same book, kind, old and new values, description),
    whenever they run and whatever the clock shows; the comparison itself
    writes nothing to storage. *)
Theorem compare_books_repeatable (clock1 clock2 : Clock)
    (old_book new_book : Book.t) (w1 w2 : World) :
  map event_content (fst (@compare_books clock1 old_book new_book w1))
  = map event_content (fst (@compare_books clock2 old_book new_book w2))
  ∧ db_books (snd (@compare_books clock1 old_book new_book w1)) = db_books w1.
Proof.
  split; [ | apply (@compare_books_reads_only_clock clock1) ].
  unfold compare_books, new_ChangeLog, utcnow, bind, ret.
  destruct (float_ne (Book.price_incl_tax old_book) _);
    destruct (int_ne (Book.num_available old_book) _);
    destruct (int_ne (Book.num_reviews old_book) _); simpl;
    try reflexivity.
  destruct (bool_decide _); reflexivity.
Qed.

(** ** The content hash *)

Lemma append_assoc (s1 s2 s3 : string) :
  (s1 +:+ s2) +:+ s3 = s1 +:+ (s2 +:+ s3).
Proof.
  induction s1 as [ | a s1 IH ]; [ reflexivity | ].
  change (String a ((s1 +:+ s2) +:+ s3) = String a (s1 +:+ (s2 +:+ s3))).
  by f_equal.
Qed.

(** The string that is hashed: the seven fields, keys in sorted order. *)
Lemma compute_content_hash_canonical `{Hashlib} (book : Book.t) :
  compute_content_hash book
  = sha256_hexdigest
      ("{" +:+ json_encode_str "availability" +:+ ": "
           +:+ json_encode_str (Book.availability book)
       +:+ ", " +:+ json_encode_str "name" +:+ ": "
           +:+ json_encode_str (Book.name book)
       +:+ ", " +:+ json_encode_str "num_available" +:+ ": "
           +:+ str_of_int (Book.num_available book)
       +:+ ", " +:+ json_encode_str "num_reviews" +:+ ": "
           +:+ str_of_int (Book.num_reviews book)
       +:+ ", " +:+ json_encode_str "price_excl_tax" +:+ ": "
           +:+ json_float (Book.price_excl_tax book)
       +:+ ", " +:+ json_encode_str "price_incl_tax" +:+ ": "
           +:+ json_float (Book.price_incl_tax book)
       +:+ ", " +:+ json_encode_str "rating" +:+ ": "
           +:+ json_encode_str (rating_value (Book.rating book))
       +:+ "}").
Proof.
  unfold compute_content_hash, json_dumps_sorted, json_item. simpl.
  rewrite !append_assoc. reflexivity.
Qed.

(** C4. Two records with the same [name], [price_incl_tax],
    [price_excl_tax], [availability], [num_available], [num_reviews] and
    [rating] have the same content hash, whatever their other fields
    (image, description, category, crawl metadata) are. *)
Theorem compute_content_hash_tracked_fields `{Hashlib} (b1 b2 : Book.t) :
  Book.name b1 = Book.name b2 →
  Book.price_incl_tax b1 = Book.price_incl_tax b2 →
  Book.price_excl_tax b1 = Book.price_excl_tax b2 →
  Book.availability b1 = Book.availability b2 →
  Book.num_available b1 = Book.num_available b2 →
  Book.num_reviews b1 = Book.num_reviews b2 →
  Book.rating b1 = Book.rating b2 →
  compute_content_hash b1 = compute_content_hash b2.
Proof.
  intros Hname Hincl Hexcl Havail Hnum Hrev Hrating.
  rewrite !compute_content_hash_canonical.
  by rewrite Hname, Hincl, Hexcl, Havail, Hnum, Hrev, Hrating.
Qed.

(** ** The fetcher *)

Section Fetcher.
Context `{Network}.

(** One attempt is one request, whatever comes back. *)
Lemma fetch_page_attempt_world (url : string) (w : World) :
  snd (fetch_page_attempt url w) = with_effects (fun l => l ++ [Get url]) w.
Proof.
  unfold fetch_page_attempt, http_get, bind, ret.
  destruct (client_get (requests (effects w)) url) as [ code text | e ];
    [ destruct (raise_for_status code) | ]; reflexivity.
Qed.

Lemma wait_exponential_bounds (attempt_number : Z) :
  2 ≤ wait_exponential 1 2 10 attempt_number ≤ 10.
Proof. unfold wait_exponential. lia. Qed.

(** What a retried fetch does to the world: it appends requests for
    [url] and waits to the trace, at most [budget] requests, every wait
    between 2 and 10 seconds, and touches nothing else. *)
Lemma retrying_trace (budget : nat) (attempt_number : Z) (url : string)
    (w : World) :
  ∃ l, snd (retrying budget attempt_number url w)
       = with_effects (fun t => t ++ l) w
       ∧ (length (requests l) ≤ budget)%nat
       ∧ Forall (fun u => u = url) (requests l)
       ∧ Forall (fun s => 2 ≤ s ≤ 10) (waits l)
       ∧ (budget ≠ 0%nat → ∃ l', l = Get url :: l').
Proof.
  revert attempt_number w.
  induction budget as [ | budget IH ]; intros attempt_number w.
  - exists []. simpl. unfold with_effects. rewrite app_nil_r.
    destruct w; repeat split; try constructor; done.
  - simpl. unfold bind at 1.
    pose proof (fetch_page_attempt_world url w) as Hw.
    destruct (fetch_page_attempt url w) as [outcome w1]. simpl in Hw. subst w1.
    assert (∀ r : result string,
      snd (ret r (with_effects (fun l => l ++ [Get url]) w))
      = with_effects (fun t => t ++ [Get url]) w) as Hret by reflexivity.
    assert (∃ l, with_effects (fun t => t ++ [Get url]) w
                 = with_effects (fun t => t ++ l) w
                 ∧ (length (requests l) ≤ S budget)%nat
                 ∧ Forall (fun u => u = url) (requests l)
                 ∧ Forall (fun s => 2 ≤ s ≤ 10) (waits l)
                 ∧ (S budget ≠ 0%nat → ∃ l', l = Get url :: l')) as Hone.
    { exists [Get url]. simpl. repeat split; eauto; lia. }
    destruct outcome as [ text | e ]; [ exact Hone | ].
    destruct (retry_if_exception_type e); simpl; [ | exact Hone ].
    destruct (stop_after_attempt 3 attempt_number); [ exact Hone | ].
    unfold bind at 1, emit at 1.
    destruct (IH (attempt_number + 1)
                (with_effects
                   (fun l => l ++ [Wait (wait_exponential 1 2 10 attempt_number)])
                   (with_effects (fun l => l ++ [Get url]) w)))
      as (l & Hl & Hlen & Hurl & Hwaits & _).
    exists (Get url :: Wait (wait_exponential 1 2 10 attempt_number) :: l).
    rewrite Hl. split; [ | split; [ | split; [ | split ] ] ].
    + unfold with_effects. simpl. by rewrite <- !app_assoc.
    + simpl. lia.
    + simpl. by constructor.
    + simpl. constructor; [ apply wait_exponential_bounds | exact Hwaits ].
    + eauto.
Qed.

(** [fetch_page] written out: the policy allows three attempts, the
    first two each followed by a wait of 2 seconds, and the outcome is
    that of the last attempt made. *)
Lemma fetch_page_unrolled (url : string) (w : World) :
  fetch_page url w
  = let (o1, w1) := fetch_page_attempt url w in
    match o1 with
    | Ok _ => (o1, w1)
    | Raise e1 =>
        if retry_if_exception_type e1 then
          let (o2, w2) :=
            fetch_page_attempt url (with_effects (fun l => l ++ [Wait 2]) w1) in
          match o2 with
          | Ok _ => (o2, w2)
          | Raise e2 =>
              if retry_if_exception_type e2 then
                fetch_page_attempt url
                  (with_effects (fun l => l ++ [Wait 2]) w2)
              else (o2, w2)
          end
        else (o1, w1)
    end.
Proof.
  unfold fetch_page. simpl. unfold bind, emit, ret.
  destruct (fetch_page_attempt url w) as [[ t1 | e1 ] w1]; [ reflexivity | ].
  destruct (retry_if_exception_type e1); simpl; [ | reflexivity ].
  change (wait_exponential 1 2 10 1) with 2.
  destruct (fetch_page_attempt url _) as [[ t2 | e2 ] w2]; [ reflexivity | ].
  destruct (retry_if_exception_type e2); simpl; [ | reflexivity ].
  change (wait_exponential 1 2 10 (1 + 1)) with 2.
  destruct (fetch_page_attempt url _) as [[ t3 | e3 ] w3]; [ reflexivity | ].
  destruct (retry_if_exception_type e3); reflexivity.
Qed.

(** Every exception the policy retries is an [httpx.HTTPError]. *)
Lemma retry_if_exception_type_HTTPError (e : exn) :
  retry_if_exception_type e = is_HTTPError e.
Proof. destruct e; reflexivity. Qed.

(** C3, as the code has it.  When the first attempt raises an exception
    that is not an [httpx.HTTPError] (such as [httpx.InvalidURL] for a
    malformed URL), [fetch_page] raises it after that single request,
    without a wait.  When it raises an [httpx.HTTPStatusError], whatever
    the status, [fetch_page] waits 2 seconds and requests the page
    again. *)
Theorem fetch_page_first_failure (url : string) (w : World) (e : exn) :
  fst (fetch_page_attempt url w) = Raise e →
  (is_HTTPError e = false →
   fst (fetch_page url w) = Raise e
   ∧ effects (snd (fetch_page url w)) = effects w ++ [Get url])
  ∧ (∀ status_code, e = HTTPStatusError status_code →
     ∃ rest, effects (snd (fetch_page url w))
             = effects w ++ [Get url; Wait 2; Get url] ++ rest).
Proof.
  intros Hfirst. rewrite fetch_page_unrolled.
  pose proof (fetch_page_attempt_world url w) as Hw1.
  destruct (fetch_page_attempt url w) as [o1 w1].
  simpl in Hfirst, Hw1. subst o1 w1.
  rewrite retry_if_exception_type_HTTPError. split.
  - intros ->. split; reflexivity.
  - intros status_code ->. simpl.
    set (w2 := with_effects (fun l => l ++ [Wait 2]) _).
    pose proof (fetch_page_attempt_world url w2) as Hw2.
    destruct (fetch_page_attempt url w2) as [[ t2 | e2 ] w3];
      simpl in Hw2; subst w3.
    + exists []. simpl. by rewrite <- !app_assoc.
    + destruct (retry_if_exception_type e2).
      * rewrite fetch_page_attempt_world. exists [Wait 2; Get url].
        simpl. by rewrite <- !app_assoc.
      * exists []. simpl. by rewrite <- !app_assoc.
Qed.

(** The waits of one [fetch_page] are none, one of 2 seconds, or two of
    2 seconds each; and it makes at most three requests. *)
Lemma fetch_page_waits (url : string) (w : World) :
  ∃ l, effects (snd (fetch_page url w)) = effects w ++ l
       ∧ (length (requests l) ≤ 3)%nat
       ∧ (waits l = [] ∨ waits l = [2] ∨ waits l = [2; 2])
       ∧ (length (waits l) = 2%nat → length (requests l) = 3%nat).
Proof.
  rewrite fetch_page_unrolled.
  pose proof (fetch_page_attempt_world url w) as Hw1.
  destruct (fetch_page_attempt url w) as [o1 w1]. simpl in Hw1. subst w1.
  assert (∃ l, effects (with_effects (fun l => l ++ [Get url]) w)
               = effects w ++ l
               ∧ (length (requests l) ≤ 3)%nat
               ∧ (waits l = [] ∨ waits l = [2] ∨ waits l = [2; 2])
               ∧ (length (waits l) = 2%nat → length (requests l) = 3%nat))
    as Hone.
  { exists [Get url]. simpl. repeat split; eauto; try lia; discriminate. }
  destruct o1 as [ t1 | e1 ]; [ exact Hone | ].
  destruct (retry_if_exception_type e1); [ | exact Hone ].
  set (w2 := with_effects (fun l => l ++ [Wait 2]) _).
  pose proof (fetch_page_attempt_world url w2) as Hw2.
  destruct (fetch_page_attempt url w2) as [o2 w3]. simpl in Hw2. subst w3.
  assert (∃ l, effects (with_effects (fun l => l ++ [Get url]) w2)
               = effects w ++ l
               ∧ (length (requests l) ≤ 3)%nat
               ∧ (waits l = [] ∨ waits l = [2] ∨ waits l = [2; 2])
               ∧ (length (waits l) = 2%nat → length (requests l) = 3%nat))
    as Htwo.
  { exists [Get url; Wait 2; Get url]. simpl.
    rewrite <- !app_assoc. repeat split; eauto; try lia; discriminate. }
  destruct o2 as [ t2 | e2 ]; [ exact Htwo | ].
  destruct (retry_if_exception_type e2); [ | exact Htwo ].
  rewrite fetch_page_attempt_world.
  exists [Get url; Wait 2; Get url; Wait 2; Get url]. simpl.
  rewrite <- !app_assoc. repeat split; eauto; lia.
Qed.

End Fetcher.

(** C3 as written fails: on a server that answers 404, which the
    specification counts as non-retryable, [fetch_page] makes three
    requests with two waits before it raises the error. *)
Lemma fetch_page_retries_not_found :
  spec_non_retryable (HTTPStatusError 404) = true
  ∧ fst (@fetch_page_attempt site_not_found "u" empty_world)
    = Raise (HTTPStatusError 404)
  ∧ @fetch_page site_not_found "u" empty_world
    = (Raise (HTTPStatusError 404),
       with_effects
         (fun _ => [Get "u"; Wait 2; Get "u"; Wait 2; Get "u"]) empty_world)
  ∧ ¬ @fails_immediately site_not_found "u" empty_world.
Proof.
  repeat split. unfold fails_immediately. discriminate.
Qed.

(** C7, evaluated.  Whatever the server does, [fetch_page] makes at most
    three requests and its waits are 2 seconds, then 2 seconds again; on
    a server that fails twice and then answers, it returns the body after
    exactly three requests, and the two waits between them are equal,
    not increasing. *)
Theorem fetch_page_backoff_is_flat :
  (∀ (network : Network) (url : string) (w : World),
     ∃ l, effects (snd (@fetch_page network url w)) = effects w ++ l
          ∧ (length (requests l) ≤ 3)%nat
          ∧ (waits l = [] ∨ waits l = [2] ∨ waits l = [2; 2])
          ∧ (length (waits l) = 2%nat → strictly_increasing (waits l) = false))
  ∧ fst (@fetch_page site_fails_twice "u" empty_world) = Ok "<html>ok</html>"
  ∧ effects (snd (@fetch_page site_fails_twice "u" empty_world))
    = [Get "u"; Wait 2; Get "u"; Wait 2; Get "u"]
  ∧ waits (effects (snd (@fetch_page site_fails_twice "u" empty_world)))
    = [2; 2]
  ∧ strictly_increasing
      (waits (effects (snd (@fetch_page site_fails_twice "u" empty_world))))
    = false.
Proof.
  split; [ | repeat split ].
  intros network url w.
  destruct (@fetch_page_waits network url w) as (l & Hl & Hlen & Hw & _).
  exists l. repeat split; try done.
  intros Htwo. destruct Hw as [Hw | [Hw | Hw]]; rewrite Hw in *;
    [ discriminate | discriminate | reflexivity ].
Qed.

(** ** The crawl *)

(** Running a bind is running its two halves in turn. *)
Lemma bind_run {A B} (c : M A) (k : A -> M B) (w : World) :
  bind c k w = k (fst (c w)) (snd (c w)).
Proof. unfold bind. by destruct (c w). Qed.

Lemma trace_grows_refl (w : World) : trace_grows w w.
Proof. exists []. by rewrite app_nil_r. Qed.

Lemma trace_grows_same (w w' : World) :
  effects w' = effects w → trace_grows w w'.
Proof. intros Heq. exists []. by rewrite app_nil_r. Qed.

Lemma trace_grows_trans (w1 w2 w3 : World) :
  trace_grows w1 w2 → trace_grows w2 w3 → trace_grows w1 w3.
Proof.
  intros [l1 H1] [l2 H2]. exists (l1 ++ l2). by rewrite H2, H1, app_assoc.
Qed.

Section Crawl.
Context `{Clock} `{Network} `{Parser} `{Hashlib} `{Mongo}.

(** After [save_checkpoint] the store holds the checkpoint under its
    name, with the [_id] the collection gave it. *)
Lemma save_checkpoint_lookup (checkpoint : CrawlCheckpoint.t) (w : World) :
  ∃ i, db_checkpoints (snd (save_checkpoint checkpoint w))
         !! CrawlCheckpoint.checkpoint_id checkpoint
       = Some (set_checkpoint_id i checkpoint).
Proof.
  unfold save_checkpoint.
  destruct (db_checkpoints w !! CrawlCheckpoint.checkpoint_id checkpoint)
    as [ stored | ]; simpl; eexists; apply lookup_insert_eq.
Qed.

Lemma save_checkpoint_stats (checkpoint : CrawlCheckpoint.t) (w : World) :
  stats (snd (save_checkpoint checkpoint w)) = stats w.
Proof.
  unfold save_checkpoint.
  by destruct (db_checkpoints w !! CrawlCheckpoint.checkpoint_id checkpoint).
Qed.

(** Whenever [scrape_all_books] gets past its loop, however the loop
    ended, the checkpoint it leaves says [success]; and when the loop
    ended with a page still to do, the checkpoint names that page. *)
Lemma scrape_all_books_final_checkpoint (pages : nat) (base : string)
    (start_url : option string) (resume : bool) (w : World)
    (current_page_url : option string) :
  fst (scrape_all_books pages base start_url resume w)
  = Finished current_page_url →
  ∃ checkpoint,
    db_checkpoints (snd (scrape_all_books pages base start_url resume w))
      !! "main_crawl" = Some checkpoint
    ∧ CrawlCheckpoint.status checkpoint = SUCCESS
    ∧ CrawlCheckpoint.last_book_url checkpoint = None
    ∧ CrawlCheckpoint.total_books_crawled checkpoint
      = Stats.total_books
          (stats (snd (scrape_all_books pages base start_url resume w)))
    ∧ (∀ page_url, current_page_url = Some page_url →
         truthy_str page_url = true →
         CrawlCheckpoint.last_page_url checkpoint = page_url).
Proof.
  unfold scrape_all_books. rewrite !bind_run.
  destruct (scrape_pages pages _ _) as [[ cur | ] w3]; [ | discriminate ].
  simpl. rewrite !bind_run. simpl. intros [= <-].
  set (last_page := or_str cur _).
  set (checkpoint := CrawlCheckpoint.mk _ last_page _ _ _ _ _).
  set (w4 := mkWorld _ _ _ _ _ _).
  destruct (save_checkpoint_lookup checkpoint w4) as [i Hi].
  exists (set_checkpoint_id i checkpoint).
  split; [ exact Hi | ]. rewrite save_checkpoint_stats.
  repeat split. intros page_url Hcur Htruthy. simpl.
  unfold last_page. rewrite Hcur. simpl. by rewrite Htruthy.
Qed.

Lemma fetch_page_first_request (url : string) (w : World) :
  ∃ l, effects (snd (fetch_page url w)) = effects w ++ Get url :: l.
Proof.
  destruct (retrying_trace 3 1 url w) as (l & Hl & _ & _ & _ & Hfirst).
  destruct Hfirst as [l' ->]; [ done | ].
  exists l'. unfold fetch_page. by rewrite Hl.
Qed.

Lemma fetch_page_grows (url : string) (w : World) :
  trace_grows w (snd (fetch_page url w)).
Proof. destruct (fetch_page_first_request url w) as [l Hl]. by eexists. Qed.

Lemma upsert_book_effects (book : Book.t) (w : World) :
  effects (snd (upsert_book book w)) = effects w.
Proof. unfold upsert_book. by destruct (db_books w !! Book.source_url book). Qed.

Lemma save_checkpoint_effects (checkpoint : CrawlCheckpoint.t) (w : World) :
  effects (snd (save_checkpoint checkpoint w)) = effects w.
Proof.
  unfold save_checkpoint.
  by destruct (db_checkpoints w !! CrawlCheckpoint.checkpoint_id checkpoint).
Qed.

Lemma scrape_book_grows (book_url : string) (w : World) :
  trace_grows w (snd (scrape_book book_url w)).
Proof.
  unfold scrape_book. rewrite bind_run.
  eapply trace_grows_trans; [ apply (fetch_page_grows book_url) | ].
  destruct (fst (fetch_page book_url w)) as [ html | e ].
  - destruct (parse_book_detail_page html book_url) as [ book | ].
    + rewrite bind_run.
      destruct (fst (upsert_book _ _)) as [book_id is_new].
      apply trace_grows_same. simpl. apply upsert_book_effects.
    + by apply trace_grows_same.
  - by apply trace_grows_same.
Qed.

Lemma mapM_grows {A B} (f : A → M B) (l : list A) (w : World) :
  (∀ a w, trace_grows w (snd (f a w))) →
  trace_grows w (snd (mapM f l w)).
Proof.
  intros Hf. revert w. induction l as [ | a l IH ]; intros w; simpl.
  - apply trace_grows_refl.
  - rewrite !bind_run. simpl.
    eapply trace_grows_trans; [ apply Hf | apply IH ].
Qed.

Lemma scrape_catalog_page_world (page_url : string) (w : World) :
  snd (scrape_catalog_page page_url w) = snd (fetch_page page_url w).
Proof.
  unfold scrape_catalog_page. rewrite bind_run.
  destruct (fst (fetch_page page_url w)) as [ html | e ]; [ | reflexivity ].
  destruct (parse_book_list_page html page_url); [ | reflexivity ].
  destruct (get_next_page_url html page_url); reflexivity.
Qed.

Lemma scrape_pages_grows (pages : nat) (current_page_url : option string)
    (w : World) :
  trace_grows w (snd (scrape_pages pages current_page_url w)).
Proof.
  revert current_page_url w.
  induction pages as [ | pages IH ]; intros [ page_url | ] w; simpl;
    try apply trace_grows_refl.
  - destruct (truthy_str page_url); apply trace_grows_refl.
  - destruct (truthy_str page_url); simpl; [ | apply trace_grows_refl ].
    rewrite bind_run, scrape_catalog_page_world.
    eapply trace_grows_trans; [ apply fetch_page_grows | ].
    destruct (fst (scrape_catalog_page page_url w))
      as [[ | book_url book_urls ] next_page_url];
      [ apply trace_grows_refl | ].
    set (urls := book_url :: book_urls). clearbody urls.
    rewrite !bind_run.
    eapply trace_grows_trans;
      [ apply (mapM_grows scrape_book urls), scrape_book_grows | ].
    eapply trace_grows_trans; [ | apply IH ].
    exists [Pause]. simpl. by rewrite save_checkpoint_effects.
Qed.

Lemma scrape_pages_first_request (pages : nat) (page_url : string)
    (w : World) :
  truthy_str page_url = true →
  ∃ l, effects (snd (scrape_pages (S pages) (Some page_url) w))
       = effects w ++ Get page_url :: l.
Proof.
  intros Htruthy.
  destruct (fetch_page_first_request page_url w) as [l1 Hl1].
  assert (trace_grows (snd (fetch_page page_url w))
            (snd (scrape_pages (S pages) (Some page_url) w))) as [l2 Hl2].
  { simpl. rewrite Htruthy. simpl.
    rewrite bind_run, scrape_catalog_page_world.
    destruct (fst (scrape_catalog_page page_url w))
      as [[ | book_url book_urls ] next_page_url];
      [ apply trace_grows_refl | ].
    set (urls := book_url :: book_urls). clearbody urls.
    rewrite !bind_run.
    eapply trace_grows_trans;
      [ apply (mapM_grows scrape_book urls), scrape_book_grows | ].
    eapply trace_grows_trans; [ | apply scrape_pages_grows ].
    exists [Pause]. simpl. by rewrite save_checkpoint_effects. }
  exists (l1 ++ l2). rewrite Hl2, Hl1, <- app_assoc. reflexivity.
Qed.

(** Resuming is starting afresh at the page the checkpoint names, with
    the counter set to the total of the checkpoint. *)
Lemma resume_is_restart_at_checkpoint (pages : nat) (base : string)
    (start_url : option string) (w : World) (checkpoint : CrawlCheckpoint.t) :
  db_checkpoints w !! "main_crawl" = Some checkpoint →
  scrape_all_books pages base start_url true w
  = scrape_all_books pages base
      (Some (CrawlCheckpoint.last_page_url checkpoint)) false
      (with_stats
         (set_total_books (CrawlCheckpoint.total_books_crawled checkpoint))
         w).
Proof.
  intros Hcp. unfold scrape_all_books.
  rewrite (bind_run utcnow). rewrite (bind_run utcnow _ (with_stats _ _)).
  rewrite (bind_run (update_stats _)).
  rewrite (bind_run (update_stats _) _ (snd (utcnow (with_stats _ _)))).
  rewrite (bind_run (bind _ _)). rewrite (bind_run (ret _)).
  rewrite (bind_run (get_checkpoint _)).
  unfold get_checkpoint at 1 2 3. simpl. rewrite Hcp. simpl.
  reflexivity.
Qed.
(** So the first request of a resumed run is for the page the checkpoint
    names, the last one the stopped run had completed. *)
Lemma resume_requests_checkpointed_page (pages : nat) (base : string)
    (start_url : option string) (w : World) (checkpoint : CrawlCheckpoint.t) :
  db_checkpoints w !! "main_crawl" = Some checkpoint →
  truthy_str (CrawlCheckpoint.last_page_url checkpoint) = true →
  ∃ l, effects (snd (scrape_all_books (S pages) base start_url true w))
       = effects w ++ Get (CrawlCheckpoint.last_page_url checkpoint) :: l.
Proof.
  intros Hcp Htruthy.
  pose proof (scrape_pages_first_request pages
                (CrawlCheckpoint.last_page_url checkpoint)) as Hfirst.
  set (n := S pages) in *. clearbody n.
  unfold scrape_all_books. rewrite !bind_run.
  unfold get_checkpoint at 1 2 3. simpl. rewrite Hcp. simpl.
  rewrite Htruthy. simpl.
  set (w1 := with_stats _ _).
  destruct (Hfirst w1 Htruthy) as [l Hl].
  change (effects w1) with (effects w) in Hl.
  destruct (scrape_pages n _ w1) as [[ cur | ] w2].
  - simpl in *. unfold bind, get_stats, new_CrawlCheckpoint, utcnow. simpl.
    match goal with
    | |- context [ save_checkpoint ?c ?v ] =>
        pose proof (save_checkpoint_effects c v) as Hsave;
        destruct (save_checkpoint c v) as [[] w3]
    end.
    simpl in *. rewrite Hsave. eauto.
  - simpl in *. eauto.
Qed.

(** A catalog page that cannot be fetched ends the walk where it is. *)
Lemma scrape_pages_stops_at_failed_page (pages : nat) (page_url : string)
    (w : World) (e : exn) :
  truthy_str page_url = true →
  fst (fetch_page page_url w) = Raise e →
  scrape_pages (S pages) (Some page_url) w
  = (Finished (Some page_url), snd (fetch_page page_url w)).
Proof.
  intros Htruthy Hfail. simpl. rewrite Htruthy. simpl.
  rewrite bind_run. unfold scrape_catalog_page at 1 2.
  rewrite !bind_run, Hfail. reflexivity.
Qed.

(** When the loop ends with a page still to do, that page is one whose
    catalog request gave no books: it failed, or the page was empty. *)
Lemma scrape_pages_ends_at_unprocessed_page (pages : nat)
    (start : option string) (w : World) (page_url : string) :
  fst (scrape_pages pages start w) = Finished (Some page_url) →
  truthy_str page_url = true →
  ∃ w', trace_grows w w'
        ∧ fst (fst (scrape_catalog_page page_url w')) = []
        ∧ snd (scrape_pages pages start w)
          = snd (scrape_catalog_page page_url w').
Proof.
  revert start w.
  induction pages as [ | pages IH ]; intros [ url | ] w; simpl;
    try discriminate.
  - destruct (truthy_str url) eqn:Hurl; simpl; [ discriminate | ].
    intros [= ->] Htruthy. congruence.
  - destruct (truthy_str url) eqn:Hurl; simpl.
    + rewrite bind_run.
      destruct (scrape_catalog_page url w)
        as [[[ | book_url book_urls ] next_page_url] w1] eqn:Hpage.
      * simpl. intros [= ->] _. exists w.
        rewrite Hpage. split; [ apply trace_grows_refl | done ].
      * cbn [fst snd].
        set (urls := book_url :: book_urls). clearbody urls.
        rewrite !bind_run. intros Hend Htruthy.
        destruct (IH _ _ Hend Htruthy) as (w' & Hgrows & Hnone & Hsame).
        exists w'. split; [ | done ].
        eapply trace_grows_trans; [ | exact Hgrows ].
        replace w1 with (snd (scrape_catalog_page url w))
          by (by rewrite Hpage).
        rewrite scrape_catalog_page_world.
        eapply trace_grows_trans; [ apply fetch_page_grows | ].
        eapply trace_grows_trans;
          [ apply (mapM_grows scrape_book urls), scrape_book_grows | ].
        exists [Pause]. simpl. by rewrite save_checkpoint_effects.
    + intros [= ->] Htruthy. congruence.
Qed.

End Crawl.

(** C6, evaluated.  On a site whose page 2 cannot be fetched, the run
    processes page 1 (two books), gives up on page 2 after three
    attempts, and ends; the checkpoint it leaves names page 2, the page
    that failed, and says [success]. *)
Theorem failed_catalog_page_marked_success :
  fst run_page_2_down = Finished (Some page_2)
  ∧ requests (effects (snd run_page_2_down))
    = [page_1; book_a; book_b; page_2; page_2; page_2]
  ∧ ∃ checkpoint,
      db_checkpoints (snd run_page_2_down) !! "main_crawl" = Some checkpoint
      ∧ CrawlCheckpoint.last_page_url checkpoint = page_2
      ∧ CrawlCheckpoint.status checkpoint = SUCCESS
      ∧ CrawlCheckpoint.total_books_crawled checkpoint = 2.
Proof.
  split; [ by vm_compute | split; [ by vm_compute | ] ].
  eexists. split; [ vm_compute; reflexivity | ]. by repeat split.
Qed.

(** C2, evaluated.  A first process is stopped after the checkpoint of
    page 1 (two books, counter at 2).  The process started with resume
    then begins at page 1 again, requests both of its books a second
    time, and ends with a counter of 5 on a site of 3 books. *)
Theorem resume_fetches_checkpointed_page_again :
  fst stopped_after_page_1 = Interrupted
  ∧ (∃ checkpoint,
       db_checkpoints (snd stopped_after_page_1) !! "main_crawl"
       = Some checkpoint
       ∧ CrawlCheckpoint.last_page_url checkpoint = page_1
       ∧ CrawlCheckpoint.total_books_crawled checkpoint = 2)
  ∧ requests (effects (snd stopped_after_page_1)) = [page_1; book_a; book_b]
  ∧ requests (effects (snd resumed_run))
    = [page_1; book_a; book_b; page_2; book_c]
  ∧ Stats.total_books (stats (snd resumed_run)) = 5.
Proof.
  split; [ by vm_compute | split ].
  - eexists. split; [ vm_compute; reflexivity | ]. by repeat split.
  - repeat split; by vm_compute.
Qed.

(** ** The theorems at work on the sample data *)

Lemma compare_books_generic_only_witness :
  (Book.content_hash old_record ≠ Book.content_hash rerated_record
   ∧ SFeqb (Book.price_incl_tax old_record)
           (Book.price_incl_tax rerated_record) = true
   ∧ Book.num_available old_record = Book.num_available rerated_record
   ∧ Book.num_reviews old_record = Book.num_reviews rerated_record)
  ∧ ∃ g, fst (@compare_books sample_clock old_record rerated_record
                empty_world) = [g]
         ∧ ChangeLog.change_type g = CONTENT_CHANGE
         ∧ ChangeLog.old_value g = None
         ∧ ChangeLog.new_value g = None.
Proof.
  split.
  - split; [ discriminate | repeat split ].
  - apply (proj1 (@compare_books_generic_only sample_clock old_record
                    rerated_record empty_world));
      [ discriminate | reflexivity | reflexivity | reflexivity ].
Defined.

Lemma compare_books_price_drop_witness :
  Book.content_hash old_record ≠ Book.content_hash cheaper_record
  ∧ ∃ c, fst (@compare_books sample_clock old_record cheaper_record
                empty_world) = [c]
         ∧ ChangeLog.change_type c = PRICE_CHANGE
         ∧ ChangeLog.old_value c = Some [("price_incl_tax", VFloat f50)]
         ∧ ChangeLog.new_value c = Some [("price_incl_tax", VFloat f45)]
         ∧ ChangeLog.description c
           = Some "Price changed from £50.00 to £45.00".
Proof.
  split; [ discriminate | ].
  apply (@compare_books_price_drop sample_clock old_record cheaper_record
           empty_world);
    solve [ reflexivity | discriminate ].
Defined.

Lemma compare_books_nonempty_witness :
  Book.content_hash old_record ≠ Book.content_hash cheaper_record
  ∧ fst (@compare_books sample_clock old_record cheaper_record empty_world)
    ≠ [].
Proof.
  split; [ discriminate | ].
  apply (@compare_books_nonempty sample_clock old_record cheaper_record
           empty_world).
  discriminate.
Defined.

Lemma compute_content_hash_tracked_fields_witness :
  Book.image_url old_record ≠ Book.image_url redecorated_record
  ∧ Book.category old_record ≠ Book.category redecorated_record
  ∧ @compute_content_hash sample_hashlib old_record
    = @compute_content_hash sample_hashlib redecorated_record.
Proof.
  split; [ discriminate | split; [ discriminate | ] ].
  apply (@compute_content_hash_tracked_fields sample_hashlib old_record
           redecorated_record); reflexivity.
Defined.

Lemma fetch_page_first_failure_witness :
  fst (@fetch_page_attempt site_invalid_url "u" empty_world) = Raise InvalidURL
  ∧ fst (@fetch_page site_invalid_url "u" empty_world) = Raise InvalidURL
  ∧ effects (snd (@fetch_page site_invalid_url "u" empty_world)) = [Get "u"].
Proof.
  split; [ reflexivity | ].
  apply (proj1 (@fetch_page_first_failure site_invalid_url "u" empty_world
                  InvalidURL eq_refl)).
  reflexivity.
Defined.


(** * Further properties *)

(** ** The change detector *)

Lemma tally_count_changes (s : DetectorStats.t) (l : list ChangeLog.t) :
  Forall (fun c => ChangeLog.change_type c = PRICE_CHANGE
                   ∨ ChangeLog.change_type c = AVAILABILITY_CHANGE
                   ∨ ChangeLog.change_type c = CONTENT_CHANGE) l →
  tally (foldl count_change s l) = tally s + Z.of_nat (length l)
  ∧ DetectorStats.new_books (foldl count_change s l) = DetectorStats.new_books s
  ∧ DetectorStats.unchanged (foldl count_change s l) = DetectorStats.unchanged s.
Proof.
  intros Hall. revert s.
  induction Hall as [ | c l Hc _ IH ]; intros s; simpl.
  - unfold tally. repeat split; lia.
  - destruct (IH (count_change s c)) as (-> & -> & ->).
    unfold count_change, tally.
    destruct Hc as [-> | [-> | ->]]; simpl; repeat split; lia.
Qed.

Lemma foldM_invariant {A S} (P : S → Prop) (f : A → S → M S) (l : list A)
    (s : S) (w : World) :
  (∀ a s w, P s → P (fst (f a s w))) →
  P s → P (fst (foldM f l s w)).
Proof.
  intros Hf. revert s w. induction l as [ | a l IH ]; intros s w Hs; simpl.
  - exact Hs.
  - rewrite bind_run. apply IH, Hf, Hs.
Qed.

Section Detection.
Context `{Clock} `{Network} `{Parser} `{Hashlib} `{Mongo}.

Lemma check_book_tallied (book_url : string) (self : ChangeDetector.t)
    (w : World) :
  tallied self → tallied (fst (_check_book book_url self w)).
Proof.
  intros Hself. unfold _check_book. rewrite bind_run.
  destruct (fst (http_get book_url w)) as [ code html | e ]; [ | done ].
  destruct (raise_for_status code); [ | done ].
  destruct (parse_book_detail_page html book_url) as [ book | ]; [ | done ].
  rewrite bind_run.
  destruct (fst (get_book_by_url book_url _)) as [ old_book | ].
  - destruct (bool_decide _).
    + rewrite !bind_run. cbn [fst].
      set (r := compare_books _ _ _).
      pose proof (compare_books_kinds old_book
        (Book.set_content_hash (Some (compute_content_hash book)) book)
        (snd (get_book_by_url book_url (snd (http_get book_url w)))))
        as [Hkinds _].
      fold r in Hkinds.
      destruct (tally_count_changes (ChangeDetector.stats self) (fst r) Hkinds)
        as (Ht & _ & _).
      unfold tallied in *. simpl. rewrite length_app, Ht. lia.
    + rewrite !bind_run. unfold tallied in *. simpl.
      unfold tally in *. simpl. lia.
  - rewrite bind_run.
    destruct (fst (fst (upsert_book _ _))) as [ book_id | ]; [ | done ].
    rewrite bind_run. unfold tallied in *. simpl.
    rewrite length_app. unfold tally in *. simpl. lia.
Qed.

Lemma crawl_and_compare_pages_tallied (pages : nat)
    (current_page_url : option string) (self : ChangeDetector.t) (w : World) :
  tallied self →
  tallied (snd (fst (crawl_and_compare_pages pages current_page_url self w))).
Proof.
  revert current_page_url self w.
  induction pages as [ | pages IH ]; intros [ page_url | ] self w Hself;
    simpl; try done.
  - by destruct (negb (truthy_str page_url)).
  - destruct (negb (truthy_str page_url)); [ done | ].
    rewrite bind_run.
    destruct (fst (http_get page_url w)) as [ code html | e ]; [ | done ].
    destruct (raise_for_status code); [ | done ].
    destruct (parse_book_list_page html page_url) as [ book_urls | e ];
      [ | done ].
    rewrite bind_run.
    assert (tallied (fst (foldM _check_book book_urls self
                            (snd (http_get page_url w))))) as Hchecked.
    { apply (foldM_invariant tallied); [ | exact Hself ].
      intros. by apply check_book_tallied. }
    destruct (get_next_page_url html page_url) as [ next | e ]; [ | done ].
    rewrite bind_run. by apply IH.
Qed.

(** X1. The summary of [detect_changes] adds up: on a detector whose
    list of changes and counters agree, as they do on a new one,
    [total_changes] is the sum of the four change counters. *)
Theorem detect_changes_total (pages : nat) (self : ChangeDetector.t)
    (changelog : list ChangeLog.t) (w : World) (summary : Summary.t) :
  tallied self →
  fst (fst (fst (detect_changes pages self changelog w))) = Some summary →
  Summary.total_changes summary
  = Summary.new_books summary + Summary.price_changes summary
    + Summary.availability_changes summary
    + Summary.content_changes summary
  ∧ tallied (snd (fst (fst (detect_changes pages self changelog w)))).
Proof.
  intros Hself. unfold detect_changes, _crawl_and_compare.
  rewrite !bind_run.
  set (w1 := snd (count_books _)).
  pose proof (crawl_and_compare_pages_tallied pages
    (Some ("https://books.toscrape.com" +:+ "/catalogue/page-1.html"))
    self w1 Hself) as Hcrawl.
  destruct (fst (crawl_and_compare_pages pages _ self w1))
    as [finished self'].
  simpl in Hcrawl. destruct finished; simpl; [ | discriminate ].
  rewrite !bind_run. simpl. intros [= <-]. simpl. split; [ | exact Hcrawl ].
  exact Hcrawl.
Qed.

Lemma foldM_invariant_world {A S} (P : S → World → Prop) (f : A → S → M S)
    (l : list A) (s : S) (w : World) :
  (∀ a s w, P s w → P (fst (f a s w)) (snd (f a s w))) →
  P s w → P (fst (foldM f l s w)) (snd (foldM f l s w)).
Proof.
  intros Hf. revert s w. induction l as [ | a l IH ]; intros s w Hs; simpl.
  - exact Hs.
  - rewrite bind_run. apply IH, Hf, Hs.
Qed.

(** The events of [compare_books], timestamps apart, are the same in
    every state. *)
Lemma compare_books_same_events `{Clock} (old_book new_book : Book.t)
    (w1 w2 : World) :
  map event_content (fst (compare_books old_book new_book w1))
  = map event_content (fst (compare_books old_book new_book w2)).
Proof.
  unfold compare_books, new_ChangeLog, utcnow, bind, ret.
  destruct (float_ne (Book.price_incl_tax old_book) _);
    destruct (int_ne (Book.num_available old_book) _);
    destruct (int_ne (Book.num_reviews old_book) _); simpl;
    try reflexivity.
  destruct (bool_decide _); reflexivity.
Qed.


(** [_check_book], by what the page shows and what the database holds. *)
Lemma check_book_unfold (book_url : string) (self : ChangeDetector.t)
    (w : World) :
  _check_book book_url self w
  = let w1 := with_effects (fun l => l ++ [Get book_url]) w in
    match extraction book_url w with
    | None => (self, w1)
    | Some new_book =>
        match db_books w !! book_url with
        | None =>
            match fst (fst (upsert_book new_book w1)) with
            | None => (self, snd (upsert_book new_book w1))
            | Some book_id =>
                let r :=
                  new_ChangeLog book_id (Book.name new_book) NEW_BOOK None
                    (Some [("name", VStr (Book.name new_book));
                           ("price", VFloat (Book.price_incl_tax new_book));
                           ("category", VStr (Book.category new_book))])
                    (Some ("New book added: " +:+ Book.name new_book))
                    (snd (upsert_book new_book w1)) in
                (ChangeDetector.mk (ChangeDetector.changes self ++ [fst r])
                   (incr_new_books (ChangeDetector.stats self)),
                 snd r)
            end
        | Some old_book =>
            if bool_decide (Book.content_hash old_book
                            ≠ Book.content_hash new_book)
            then
              let r := compare_books old_book new_book w1 in
              (ChangeDetector.mk (ChangeDetector.changes self ++ fst r)
                 (foldl count_change (ChangeDetector.stats self) (fst r)),
               snd (upsert_book new_book (snd r)))
            else
              (ChangeDetector.mk (ChangeDetector.changes self)
                 (incr_unchanged (ChangeDetector.stats self)),
               snd (upsert_book
                      (set_crawl_timestamp (utcnow_at (clock_reads w)) new_book)
                      (snd (utcnow w1))))
        end
    end.
Proof.
  unfold _check_book, extraction. rewrite bind_run. cbn [fst snd http_get].
  destruct (client_get (requests (effects w)) book_url) as [ code html | e ];
    [ | reflexivity ].
  destruct (raise_for_status code); [ | reflexivity ].
  destruct (parse_book_detail_page html book_url) as [ book | ];
    [ | reflexivity ].
  rewrite bind_run. cbn [fst snd get_book_by_url]. cbv zeta.
  change (db_books (with_effects _ w)) with (db_books w).
  destruct (db_books w !! book_url) as [ old_book | ].
  - destruct (bool_decide _); rewrite !bind_run; reflexivity.
  - rewrite bind_run.
    destruct (fst (fst (upsert_book _ _))); [ | reflexivity ].
    rewrite !bind_run. reflexivity.
Qed.

(** X2. A page that cannot be fetched or parsed costs one request and
    changes nothing else: the detector and the database stay as they
    were. *)
Theorem check_book_failure (book_url : string) (self : ChangeDetector.t)
    (w : World) :
  extraction book_url w = None →
  _check_book book_url self w
  = (self, with_effects (fun l => l ++ [Get book_url]) w).
Proof. intros Hnone. rewrite check_book_unfold, Hnone. reflexivity. Qed.

(** X3. A book whose URL the database does not hold yet is stored, and
    the detector gets exactly one more event, a [new_book] that carries
    the name, price and category of the book and the id it was stored
    under; only the counter of new books moves. *)
Theorem check_book_new (book_url : string) (self : ChangeDetector.t)
    (w : World) (new_book : Book.t) :
  extraction book_url w = Some new_book →
  Book.source_url new_book = book_url →
  db_books w !! book_url = None →
  ∃ change book_id,
    fst (_check_book book_url self w)
    = ChangeDetector.mk (ChangeDetector.changes self ++ [change])
        (incr_new_books (ChangeDetector.stats self))
    ∧ ChangeLog.change_type change = NEW_BOOK
    ∧ ChangeLog.book_id change = book_id
    ∧ ChangeLog.book_name change = Book.name new_book
    ∧ ChangeLog.old_value change = None
    ∧ ChangeLog.new_value change
      = Some [("name", VStr (Book.name new_book));
              ("price", VFloat (Book.price_incl_tax new_book));
              ("category", VStr (Book.category new_book))]
    ∧ db_books (snd (_check_book book_url self w))
      = <[book_url := Book.set_id (Some book_id) new_book]> (db_books w).
Proof.
  intros Hpage Hurl Hfresh. rewrite check_book_unfold, Hpage, Hfresh.
  cbv zeta. unfold upsert_book. rewrite Hurl.
  change (db_books (with_effects _ w)) with (db_books w).
  rewrite Hfresh. cbn [fst snd].
  eexists _, _. repeat split.
Qed.

(** X4. A book whose stored hash equals the hash of the page gives no
    event: the list of changes stays as it was, only the counter of
    unchanged books moves, and the stored record is replaced by the new
    extraction, stamped with the time of the check. *)
Theorem check_book_unchanged (book_url : string) (self : ChangeDetector.t)
    (w : World) (old_book new_book : Book.t) :
  extraction book_url w = Some new_book →
  Book.source_url new_book = book_url →
  db_books w !! book_url = Some old_book →
  Book.content_hash old_book = Book.content_hash new_book →
  fst (_check_book book_url self w)
  = ChangeDetector.mk (ChangeDetector.changes self)
      (incr_unchanged (ChangeDetector.stats self))
  ∧ db_books (snd (_check_book book_url self w))
    = <[book_url := Book.set_id (Book.id old_book)
                      (set_crawl_timestamp (utcnow_at (clock_reads w))
                         new_book)]> (db_books w).
Proof.
  intros Hpage Hurl Hold Hhash. rewrite check_book_unfold, Hpage, Hold.
  cbv zeta. rewrite bool_decide_eq_false_2 by (rewrite Hhash; tauto).
  split; [ reflexivity | ].
  unfold upsert_book. cbn [Book.source_url set_crawl_timestamp].
  rewrite Hurl. cbn [utcnow snd db_books].
  change (db_books (with_effects _ w)) with (db_books w).
  rewrite Hold. reflexivity.
Qed.

(** X5. A book whose stored hash differs from the hash of the page gets
    the events of [compare_books] on the stored and the new record, at
    least one, appended to the detector; the change counters move by the
    number of these events, the counters of new and unchanged books stay,
    and the new record replaces the stored one under the same id. *)
Theorem check_book_changed (book_url : string) (self : ChangeDetector.t)
    (w : World) (old_book new_book : Book.t) :
  extraction book_url w = Some new_book →
  Book.source_url new_book = book_url →
  db_books w !! book_url = Some old_book →
  Book.content_hash old_book ≠ Book.content_hash new_book →
  ∃ events,
    events ≠ []
    ∧ map event_content events
      = map event_content (fst (compare_books old_book new_book w))
    ∧ ChangeDetector.changes (fst (_check_book book_url self w))
      = ChangeDetector.changes self ++ events
    ∧ tally (ChangeDetector.stats (fst (_check_book book_url self w)))
      = tally (ChangeDetector.stats self) + Z.of_nat (length events)
    ∧ DetectorStats.new_books
        (ChangeDetector.stats (fst (_check_book book_url self w)))
      = DetectorStats.new_books (ChangeDetector.stats self)
    ∧ DetectorStats.unchanged
        (ChangeDetector.stats (fst (_check_book book_url self w)))
      = DetectorStats.unchanged (ChangeDetector.stats self)
    ∧ db_books (snd (_check_book book_url self w))
      = <[book_url := Book.set_id (Book.id old_book) new_book]> (db_books w).
Proof.
  intros Hpage Hurl Hold Hhash. rewrite check_book_unfold, Hpage, Hold.
  cbv zeta. rewrite bool_decide_eq_true_2 by exact Hhash.
  set (w1 := with_effects _ w). set (r := compare_books old_book new_book w1).
  cbn [fst snd ChangeDetector.changes ChangeDetector.stats].
  pose proof (compare_books_kinds old_book new_book w1) as [Hkinds _].
  fold r in Hkinds.
  destruct (tally_count_changes (ChangeDetector.stats self) (fst r) Hkinds)
    as (Htally & Hnew & Hsame).
  exists (fst r). split; [ | split; [ | split; [ reflexivity | ] ] ].
  - pose proof (compare_books_shape old_book new_book w1) as Hshape.
    cbv zeta in Hshape. fold r in Hshape.
    destruct Hshape as [(_ & Hne & _) | [(_ & _ & g & -> & _) | (_ & Heq & _)]];
      [ exact Hne | discriminate | contradiction ].
  - unfold r. apply compare_books_same_events.
  - split; [ exact Htally | split; [ exact Hnew | split; [ exact Hsame | ] ] ].
    pose proof (compare_books_reads_only_clock old_book new_book w1)
      as (Hbooks & _).
    cbv zeta in Hbooks. fold r in Hbooks.
    unfold upsert_book. rewrite Hurl, Hbooks.
    change (db_books w1) with (db_books w). rewrite Hold. reflexivity.
Qed.

Lemma extraction_source_url (book_url : string) (w : World)
    (new_book : Book.t) :
  keeps_source_url _ →
  extraction book_url w = Some new_book →
  Book.source_url new_book = book_url.
Proof.
  intros Hlaw. unfold extraction.
  destruct (client_get _ _) as [ code html | ]; [ | discriminate ].
  destruct (raise_for_status code); [ | discriminate ].
  destruct (parse_book_detail_page html book_url) as [ book | ] eqn:Hparse;
    [ | discriminate ].
  intros [= <-]. simpl. by apply (Hlaw html).
Qed.



(** The number of stored books and the counter of new books move
    together. *)
Lemma check_book_count (book_url : string) (self : ChangeDetector.t)
    (w : World) :
  keeps_source_url _ →
  Z.of_nat (size (db_books (snd (_check_book book_url self w))))
  - DetectorStats.new_books
      (ChangeDetector.stats (fst (_check_book book_url self w)))
  = Z.of_nat (size (db_books w))
    - DetectorStats.new_books (ChangeDetector.stats self).
Proof.
  intros Hlaw. rewrite check_book_unfold. cbv zeta.
  set (w1 := with_effects _ w).
  destruct (extraction book_url w) as [ new_book | ] eqn:Hpage;
    [ | reflexivity ].
  pose proof (extraction_source_url _ _ _ Hlaw Hpage) as Hurl.
  destruct (db_books w !! book_url) as [ old_book | ] eqn:Hold.
  - destruct (bool_decide _); cbn [fst snd ChangeDetector.stats].
    + pose proof (compare_books_reads_only_clock old_book new_book w1)
        as (Hbooks & _). cbv zeta in Hbooks.
      pose proof (compare_books_kinds old_book new_book w1) as [Hkinds _].
      destruct (tally_count_changes (ChangeDetector.stats self) _ Hkinds)
        as (_ & -> & _).
      unfold upsert_book. rewrite Hurl, Hbooks.
      change (db_books w1) with (db_books w). rewrite Hold.
      cbn [snd db_books].
      by rewrite map_size_insert_Some by (by rewrite Hold).
    + unfold upsert_book. cbn [Book.source_url set_crawl_timestamp].
      rewrite Hurl. cbn [utcnow snd db_books].
      change (db_books w1) with (db_books w). rewrite Hold.
      cbn [snd db_books].
      by rewrite map_size_insert_Some by (by rewrite Hold).
  - unfold upsert_book. rewrite Hurl.
    change (db_books w1) with (db_books w). rewrite Hold.
    cbn [fst snd db_books ChangeDetector.stats new_ChangeLog bind utcnow ret].
    cbn [fst snd db_books ChangeDetector.stats].
    rewrite map_size_insert_None by exact Hold. simpl. lia.
Qed.

Lemma crawl_and_compare_pages_count (pages : nat)
    (current_page_url : option string) (self : ChangeDetector.t) (w : World) :
  keeps_source_url _ →
  let r := crawl_and_compare_pages pages current_page_url self w in
  Z.of_nat (size (db_books (snd r)))
  - DetectorStats.new_books (ChangeDetector.stats (snd (fst r)))
  = Z.of_nat (size (db_books w))
    - DetectorStats.new_books (ChangeDetector.stats self).
Proof.
  intros Hlaw. cbv zeta. revert current_page_url self w.
  induction pages as [ | pages IH ]; intros [ page_url | ] self w;
    simpl; try done.
  - by destruct (negb (truthy_str page_url)).
  - destruct (negb (truthy_str page_url)); [ done | ].
    rewrite bind_run. cbn [fst snd http_get].
    set (w1 := with_effects _ w).
    destruct (client_get _ _) as [ code html | e ]; [ | done ].
    destruct (raise_for_status code); [ | done ].
    destruct (parse_book_list_page html page_url) as [ book_urls | e ];
      [ | done ].
    rewrite bind_run.
    pose proof (foldM_invariant_world
      (fun s v => Z.of_nat (size (db_books v))
                  - DetectorStats.new_books (ChangeDetector.stats s)
                  = Z.of_nat (size (db_books w))
                    - DetectorStats.new_books (ChangeDetector.stats self))
      _check_book book_urls self w1) as Hfold.
    cbv beta in Hfold.
    assert (Hchecked := Hfold
      (fun a s v Hs => eq_trans (check_book_count a s v Hlaw) Hs) eq_refl).
    clear Hfold.
    destruct (get_next_page_url html page_url) as [ next | e ];
      [ | exact Hchecked ].
    rewrite bind_run. rewrite IH. exact Hchecked.
Qed.

(** X7. The book counts of the summary agree with its counter of new
    books: the database gained exactly as many books as the run counted
    as new. *)
Theorem detect_changes_book_counts (pages : nat) (self : ChangeDetector.t)
    (changelog : list ChangeLog.t) (w : World) (summary : Summary.t) :
  keeps_source_url _ →
  fst (fst (fst (detect_changes pages self changelog w))) = Some summary →
  Summary.final_book_count summary
  = Summary.initial_book_count summary
    + (Summary.new_books summary
       - DetectorStats.new_books (ChangeDetector.stats self)).
Proof.
  intros Hlaw. unfold detect_changes, _crawl_and_compare.
  rewrite !bind_run.
  set (w1 := snd (count_books _)).
  pose proof (crawl_and_compare_pages_count pages
    (Some ("https://books.toscrape.com" +:+ "/catalogue/page-1.html"))
    self w1 Hlaw) as Hcrawl.
  cbv zeta in Hcrawl.
  destruct (crawl_and_compare_pages pages _ self w1)
    as [[finished self'] w2].
  cbn [fst snd] in *. destruct finished; cbn [negb]; [ | discriminate ].
  rewrite !bind_run. cbn [fst snd ret]. intros [= <-].
  cbn [Summary.final_book_count Summary.initial_book_count Summary.new_books].
  unfold count_books, utcnow in *. cbn [fst snd db_books] in *.
  change (db_books w1) with (db_books w) in Hcrawl. lia.
Qed.

(** An iteration whose catalog page cannot be fetched ends the crawl of
    the detector: one request, no retry. *)
Lemma crawl_and_compare_pages_failure (pages : nat) (page_url : string)
    (self : ChangeDetector.t) (w : World) :
  truthy_str page_url = true →
  (∀ code html, client_get (requests (effects w)) page_url
                = Response code html →
                raise_for_status code ≠ Ok tt) →
  crawl_and_compare_pages (S pages) (Some page_url) self w
  = ((true, self), with_effects (fun l => l ++ [Get page_url]) w).
Proof.
  intros Htruthy Hfail. simpl. rewrite Htruthy. simpl.
  rewrite bind_run. cbn [fst snd http_get].
  destruct (client_get _ _) as [ code html | e ]; [ | reflexivity ].
  specialize (Hfail code html eq_refl).
  destruct (raise_for_status code) as [ [] | e ]; [ done | reflexivity ].
Qed.





(** X9. When the first catalog page cannot be fetched, [detect_changes]
    makes that one request, does not retry, and still returns a summary:
    the detector and the number of books are as before the run. *)
Theorem detect_changes_site_down (pages : nat) (self : ChangeDetector.t)
    (changelog : list ChangeLog.t) (w : World) :
  reply_fails (client_get (requests (effects w))
                 "https://books.toscrape.com/catalogue/page-1.html") = true →
  ∃ summary,
    fst (fst (detect_changes (S pages) self changelog w))
    = (Some summary, self)
    ∧ Summary.final_book_count summary = Summary.initial_book_count summary
    ∧ Summary.total_changes summary
      = Z.of_nat (length (ChangeDetector.changes self))
    ∧ effects (snd (detect_changes (S pages) self changelog w))
      = effects w
        ++ [Get "https://books.toscrape.com/catalogue/page-1.html"].
Proof.
  intros Hdown. unfold detect_changes, _crawl_and_compare.
  change ("https://books.toscrape.com" +:+ "/catalogue/page-1.html")
    with "https://books.toscrape.com/catalogue/page-1.html".
  rewrite !bind_run.
  set (w1 := snd (count_books _)).
  rewrite (crawl_and_compare_pages_failure pages _ self w1).
  - cbn [fst snd negb]. rewrite !bind_run. cbn [fst snd ret].
    eexists. split; [ reflexivity | ]. split; [ reflexivity | ].
    split; [ reflexivity | ].
    assert (∀ l v, effects (snd (foldM
              (fun change changelog =>
                 inserted <- insert_change change changelog ;;
                 ret (snd (inserted : string * list ChangeLog.t)))
              l changelog v)) = effects v) as Hlog.
    { clear. intros l. revert changelog.
      induction l as [ | c l IH ]; intros changelog v; simpl; [ done | ].
      rewrite !bind_run. cbn [fst snd insert_change ret]. by rewrite IH. }
    unfold _log_changes. cbn [utcnow snd effects]. rewrite Hlog. reflexivity.
  - reflexivity.
  - intros code html Hreply.
    change (requests (effects w1)) with (requests (effects w)) in Hreply.
    rewrite Hreply in Hdown. simpl in Hdown.
    destruct (raise_for_status code) as [ [] | ]; [ discriminate | done ].
Qed.
End Detection.

(** ** The database operations *)

Section Store.
Context `{Mongo}.




End Store.

(** ** The counters of the scraper *)

Section Accounting.
Context `{Clock} `{Network} `{Parser} `{Hashlib} `{Mongo}.

(** [scrape_book], by the outcome of the fetch and of the extraction. *)
Lemma scrape_book_unfold (book_url : string) (w : World) :
  scrape_book book_url w
  = let r := fetch_page book_url w in
    match fst r with
    | Raise _ => (None, with_stats incr_failed (snd r))
    | Ok html =>
        match parse_book_detail_page html book_url with
        | None => (None, with_stats incr_failed (snd r))
        | Some book =>
            let u := upsert_book
                       (Book.set_content_hash
                          (Some (compute_content_hash book)) book) (snd r) in
            (Some (mkScraped (fst (fst u)) (Book.name book) (snd (fst u))),
             with_stats incr_successful (snd u))
        end
    end.
Proof.
  unfold scrape_book. rewrite bind_run. cbv zeta.
  destruct (fst (fetch_page book_url w)) as [ html | e ]; [ | reflexivity ].
  destruct (parse_book_detail_page html book_url) as [ book | ];
    [ | reflexivity ].
  rewrite bind_run. destruct (fst (upsert_book _ _)) as [book_id is_new].
  reflexivity.
Qed.

Lemma upsert_book_stats (book : Book.t) (w : World) :
  stats (snd (upsert_book book w)) = stats w.
Proof. unfold upsert_book. by destruct (db_books w !! Book.source_url book). Qed.

Lemma retrying_stats (budget : nat) (attempt_number : Z) (url : string)
    (w : World) :
  stats (snd (retrying budget attempt_number url w)) = stats w.
Proof.
  destruct (retrying_trace budget attempt_number url w) as (l & -> & _).
  reflexivity.
Qed.

(** X13. Every call of [scrape_book] is counted once: a call that returns
    a record adds one to [successful], a call that returns nothing adds
    one to [failed], and in both cases the other counter and
    [total_books] stay as they were. *)
Theorem scrape_book_counts_once (book_url : string) (w : World) :
  let r := scrape_book book_url w in
  Stats.successful (stats (snd r))
  = Stats.successful (stats w) + match fst r with Some _ => 1 | None => 0 end
  ∧ Stats.failed (stats (snd r))
    = Stats.failed (stats w) + match fst r with Some _ => 0 | None => 1 end
  ∧ Stats.total_books (stats (snd r)) = Stats.total_books (stats w).
Proof.
  cbv zeta. rewrite scrape_book_unfold. cbv zeta.
  pose proof (retrying_stats 3 1 book_url w) as Hfetch.
  fold (fetch_page book_url w) in Hfetch.
  destruct (fst (fetch_page book_url w)) as [ html | e ].
  - destruct (parse_book_detail_page html book_url) as [ book | ];
      cbn [fst snd stats with_stats];
      rewrite ?upsert_book_stats, Hfetch; simpl; lia.
  - cbn [fst snd stats with_stats]. rewrite Hfetch. simpl. lia.
Qed.
End Accounting.

Section Totals.
Context `{Clock} `{Network} `{Parser} `{Hashlib} `{Mongo}.

Lemma scrape_book_tracks (book_url : string) (w : World) :
  let r := scrape_book book_url w in
  Stats.successful (stats (snd r))
  = Stats.successful (stats w) + match fst r with Some _ => 1 | None => 0 end
  ∧ Stats.total_books (stats (snd r)) = Stats.total_books (stats w).
Proof.
  cbv zeta. rewrite scrape_book_unfold. cbv zeta.
  pose proof (retrying_stats 3 1 book_url w) as Hfetch.
  fold (fetch_page book_url w) in Hfetch.
  destruct (fst (fetch_page book_url w)) as [ html | e ].
  - destruct (parse_book_detail_page html book_url) as [ book | ];
      cbn [fst snd stats with_stats];
      rewrite ?upsert_book_stats, Hfetch; simpl; lia.
  - cbn [fst snd stats with_stats]. rewrite Hfetch. simpl. lia.
Qed.

Lemma mapM_scrape_book_tracks (book_urls : list string) (w : World) :
  let r := mapM scrape_book book_urls w in
  Stats.successful (stats (snd r))
  = Stats.successful (stats w) + Z.of_nat (length (filter is_Some (fst r)))
  ∧ Stats.total_books (stats (snd r)) = Stats.total_books (stats w).
Proof.
  cbv zeta. revert w.
  induction book_urls as [ | url urls IH ]; intros w; simpl.
  - split; [ lia | reflexivity ].
  - rewrite !bind_run. cbn [fst snd ret].
    destruct (scrape_book_tracks url w) as [Hs Ht]. cbv zeta in Hs, Ht.
    destruct (IH (snd (scrape_book url w))) as [Hs' Ht'].
    rewrite Hs', Ht', Hs, Ht.
    destruct (fst (scrape_book url w)) as [ scraped | ].
    + rewrite filter_cons_True by (by eexists). simpl length. split; lia.
    + rewrite filter_cons_False by (by intros [? ?]). split; lia.
Qed.

Lemma scrape_pages_tracks (pages : nat) (current_page_url : option string)
    (w : World) :
  let r := scrape_pages pages current_page_url w in
  Stats.total_books (stats (snd r)) - Stats.successful (stats (snd r))
  = Stats.total_books (stats w) - Stats.successful (stats w).
Proof.
  cbv zeta. revert current_page_url w.
  induction pages as [ | pages IH ]; intros [ page_url | ] w; simpl;
    try done.
  - by destruct (negb (truthy_str page_url)).
  - destruct (negb (truthy_str page_url)); [ done | ].
    rewrite bind_run, scrape_catalog_page_world.
    pose proof (retrying_stats 3 1 page_url w) as Hfetch.
    fold (fetch_page page_url w) in Hfetch.
    destruct (fst (scrape_catalog_page page_url w))
      as [[ | book_url book_urls ] next_page_url].
    + simpl. by rewrite Hfetch.
    + set (urls := book_url :: book_urls). clearbody urls.
      rewrite !bind_run. rewrite IH.
      destruct (mapM_scrape_book_tracks urls (snd (fetch_page page_url w)))
        as [Hs Ht]. cbv zeta in Hs, Ht.
      cbn [fst snd emit get_stats update_stats new_CrawlCheckpoint utcnow ret
           bind with_effects with_stats stats].
      rewrite save_checkpoint_stats.
      cbn [stats Stats.total_books Stats.successful set_total_books].
      rewrite Hs, Ht, Hfetch. lia.
Qed.

(** X14. The running counter [total_books] counts the books scraped with
    success: at the end of a process, whether its loop ran to the end or
    it was stopped between two catalog pages, it is the counter
    [successful] plus what the run was seeded with, the total of the
    checkpoint on a resume and zero otherwise. *)
Theorem main_total_books (pages : nat) (base : string) (resume : bool)
    (w : World) :
  let r := main pages base resume w in
  Stats.total_books (stats (snd r))
  = seeded_total resume w + Stats.successful (stats (snd r)).
Proof.
  cbv zeta. unfold main, scrape_all_books, BookScraper_init.
  rewrite !bind_run.
  set (w0 := snd (update_stats (set_start_time _) _)).
  assert (∃ start w1,
            (if resume
             then
               checkpoint <- get_checkpoint "main_crawl" ;;
               match checkpoint with
               | Some checkpoint =>
                   update_stats
                     (set_total_books
                        (CrawlCheckpoint.total_books_crawled checkpoint)) ;;;
                   ret (Some (CrawlCheckpoint.last_page_url checkpoint))
               | None => ret None
               end
             else ret None) w0 = (start, w1)
            ∧ Stats.total_books (stats w1) = seeded_total resume w
            ∧ Stats.successful (stats w1) = 0) as (start & w1 & -> & Hseed & Hsucc).
  { unfold seeded_total. destruct resume; [ | by eexists _, _ ].
    rewrite bind_run. unfold get_checkpoint at 1 2. cbn [fst snd].
    change (db_checkpoints w0) with (db_checkpoints w).
    destruct (db_checkpoints w !! "main_crawl"); by eexists _, _. }
  cbn [fst snd].
  pose proof (scrape_pages_tracks pages
    (Some (if truthy_opt_str start then default EmptyString start
           else base +:+ "/catalogue/page-1.html")) w1) as Hwalk.
  cbv zeta in Hwalk. rewrite Hseed, Hsucc in Hwalk.
  destruct (scrape_pages pages _ w1) as [[ cur | ] w2];
    cbn [fst snd] in *.
  - rewrite !bind_run.
    cbn [fst snd get_stats update_stats new_CrawlCheckpoint utcnow ret bind
         with_stats stats].
    rewrite save_checkpoint_stats.
    cbn [stats Stats.total_books Stats.successful set_end_time]. lia.
  - cbn [ret snd]. lia.
Qed.
End Totals.

(** ** The fetcher *)

Section Attempts.
Context `{Network}.

(** X15. The outcome of [fetch_page] is the outcome of the last request it
    made: the error it raises is the error of that request, and a body it
    returns is the body of a reply with a 2xx status. *)
Theorem fetch_page_last_attempt (url : string) (w : World) :
  ∃ w', trace_grows w w'
        ∧ fetch_page url w = fetch_page_attempt url w'
        ∧ ∀ text, fst (fetch_page url w) = Ok text →
            ∃ status_code,
              client_get (requests (effects w')) url
              = Response status_code text
              ∧ 200 ≤ status_code ≤ 299.
Proof.
  assert (∀ v text, fst (fetch_page_attempt url v) = Ok text →
            ∃ status_code,
              client_get (requests (effects v)) url
              = Response status_code text
              ∧ 200 ≤ status_code ≤ 299) as Hok.
  { intros v text. unfold fetch_page_attempt. rewrite bind_run.
    cbn [fst snd http_get].
    destruct (client_get _ _) as [ code html | e ]; [ | discriminate ].
    unfold raise_for_status.
    destruct ((200 <=? code) && (code <=? 299)) eqn:Hcode; [ | discriminate ].
    intros [= <-]. exists code. split; [ reflexivity | lia ]. }
  rewrite fetch_page_unrolled.
  pose proof (fetch_page_attempt_world url w) as Hw1.
  destruct (fetch_page_attempt url w) as [o1 w1] eqn:H1.
  cbn [snd] in Hw1. subst w1.
  assert (∃ w', trace_grows w w'
                ∧ (o1, with_effects (fun l => l ++ [Get url]) w)
                  = fetch_page_attempt url w'
                ∧ ∀ text, fst (o1, with_effects (fun l => l ++ [Get url]) w)
                          = Ok text →
                    ∃ status_code,
                      client_get (requests (effects w')) url
                      = Response status_code text
                      ∧ 200 ≤ status_code ≤ 299) as Hfirst.
  { exists w. split; [ apply trace_grows_refl | ]. split; [ done | ].
    intros text Htext. apply Hok. by rewrite H1. }
  destruct o1 as [ t1 | e1 ]; [ exact Hfirst | ].
  destruct (retry_if_exception_type e1); [ | exact Hfirst ].
  clear Hfirst.
  set (w2 := with_effects (fun l => l ++ [Wait 2]) _).
  assert (trace_grows w w2) as Hw2.
  { exists [Get url; Wait 2]. simpl. by rewrite <- app_assoc. }
  pose proof (fetch_page_attempt_world url w2) as Hw3.
  destruct (fetch_page_attempt url w2) as [o2 w3] eqn:H2.
  cbn [snd] in Hw3. subst w3.
  assert (∃ w', trace_grows w w'
                ∧ (o2, with_effects (fun l => l ++ [Get url]) w2)
                  = fetch_page_attempt url w'
                ∧ ∀ text, fst (o2, with_effects (fun l => l ++ [Get url]) w2)
                          = Ok text →
                    ∃ status_code,
                      client_get (requests (effects w')) url
                      = Response status_code text
                      ∧ 200 ≤ status_code ≤ 299) as Hsecond.
  { exists w2. split; [ exact Hw2 | ]. split; [ done | ].
    intros text Htext. apply Hok. by rewrite H2. }
  destruct o2 as [ t2 | e2 ]; [ exact Hsecond | ].
  destruct (retry_if_exception_type e2); [ | exact Hsecond ].
  clear Hsecond.
  set (w4 := with_effects (fun l => l ++ [Wait 2]) _).
  exists w4. split; [ | split; [ reflexivity | apply Hok ] ].
  eapply trace_grows_trans; [ exact Hw2 | ].
  exists [Get url; Wait 2]. simpl. by rewrite <- app_assoc.
Qed.
End Attempts.

(** ** The walk over a healthy catalog *)

Lemma pauses_app (l1 l2 : list effect) :
  pauses (l1 ++ l2) = (pauses l1 + pauses l2)%nat.
Proof. unfold pauses. by rewrite omap_app, length_app. Qed.

Lemma grows_quietly_same (w w' : World) :
  effects w' = effects w → grows_quietly w w'.
Proof. intros Heq. exists []. by rewrite app_nil_r. Qed.

Lemma grows_quietly_trans (w1 w2 w3 : World) :
  grows_quietly w1 w2 → grows_quietly w2 w3 → grows_quietly w1 w3.
Proof.
  intros (l1 & H1 & Hp1) (l2 & H2 & Hp2). exists (l1 ++ l2).
  rewrite H2, H1, app_assoc, pauses_app, Hp1, Hp2. done.
Qed.

Section HealthyWalk.
Context `{Clock} `{Network} `{Parser} `{Hashlib} `{Mongo}.

Lemma fetch_page_quiet (url : string) (w : World) :
  grows_quietly w (snd (fetch_page url w)).
Proof.
  rewrite fetch_page_unrolled.
  pose proof (fetch_page_attempt_world url w) as Hw1.
  destruct (fetch_page_attempt url w) as [o1 w1]. cbn [snd] in Hw1. subst w1.
  assert (grows_quietly w (with_effects (fun l => l ++ [Get url]) w))
    as Hone by (by exists [Get url]).
  destruct o1 as [ t1 | e1 ]; [ exact Hone | ].
  destruct (retry_if_exception_type e1); [ | exact Hone ].
  set (w2 := with_effects (fun l => l ++ [Wait 2]) _).
  pose proof (fetch_page_attempt_world url w2) as Hw2.
  destruct (fetch_page_attempt url w2) as [o2 w3]. cbn [snd] in Hw2. subst w3.
  assert (grows_quietly w (with_effects (fun l => l ++ [Get url]) w2))
    as Htwo.
  { exists [Get url; Wait 2; Get url]. simpl. by rewrite <- !app_assoc. }
  destruct o2 as [ t2 | e2 ]; [ exact Htwo | ].
  destruct (retry_if_exception_type e2); [ | exact Htwo ].
  rewrite fetch_page_attempt_world.
  exists [Get url; Wait 2; Get url; Wait 2; Get url]. simpl.
  by rewrite <- !app_assoc.
Qed.

Lemma scrape_book_quiet (book_url : string) (w : World) :
  grows_quietly w (snd (scrape_book book_url w)).
Proof.
  rewrite scrape_book_unfold. cbv zeta.
  eapply grows_quietly_trans; [ apply (fetch_page_quiet book_url) | ].
  destruct (fst (fetch_page book_url w)) as [ html | e ].
  - destruct (parse_book_detail_page html book_url) as [ book | ];
      apply grows_quietly_same; [ | done ].
    cbn [snd with_stats effects]. apply upsert_book_effects.
  - by apply grows_quietly_same.
Qed.

Lemma mapM_scrape_book_quiet (book_urls : list string) (w : World) :
  grows_quietly w (snd (mapM scrape_book book_urls w)).
Proof.
  revert w. induction book_urls as [ | url urls IH ]; intros w; simpl.
  - by apply grows_quietly_same.
  - rewrite !bind_run. cbn [snd ret].
    eapply grows_quietly_trans; [ apply scrape_book_quiet | apply IH ].
Qed.

Lemma fetch_page_healthy (url html : string) (w : World) :
  (∀ history, ∃ status_code,
     client_get history url = Response status_code html
     ∧ raise_for_status status_code = Ok tt) →
  fetch_page url w = (Ok html, with_effects (fun l => l ++ [Get url]) w).
Proof.
  intros Hserved. rewrite fetch_page_unrolled.
  unfold fetch_page_attempt at 1. rewrite bind_run. cbn [fst snd http_get].
  destruct (Hserved (requests (effects w))) as (code & -> & ->).
  reflexivity.
Qed.

Lemma scrape_catalog_page_healthy (url : string) (book_urls : list string)
    (next_page_url : option string) (w : World) :
  healthy_page url book_urls next_page_url →
  scrape_catalog_page url w
  = ((book_urls, next_page_url), with_effects (fun l => l ++ [Get url]) w).
Proof.
  intros (_ & _ & html & Hserved & Hbooks & Hnext).
  unfold scrape_catalog_page. rewrite bind_run.
  rewrite (fetch_page_healthy url html w Hserved). cbn [fst snd].
  rewrite Hbooks, Hnext. reflexivity.
Qed.

Lemma scrape_pages_done (pages : nat) (current_page_url : option string)
    (w : World) :
  truthy_opt_str current_page_url = false →
  scrape_pages pages current_page_url w = (Finished current_page_url, w).
Proof.
  intros Hdone. destruct current_page_url as [ url | ];
    destruct pages; simpl in *; rewrite ?Hdone; reflexivity.
Qed.

(** One healthy page takes one iteration: its checkpoint is saved, one
    pause is made, and the walk goes on at the next page. *)
Lemma scrape_pages_healthy_step (pages : nat) (url : string)
    (book_urls : list string) (next_page_url : option string) (w : World) :
  healthy_page url book_urls next_page_url →
  ∃ w',
    scrape_pages (S pages) (Some url) w = scrape_pages pages next_page_url w'
    ∧ (∃ l, effects w' = effects w ++ l ∧ pauses l = 1%nat)
    ∧ ∃ checkpoint,
        db_checkpoints w' !! "main_crawl" = Some checkpoint
        ∧ CrawlCheckpoint.last_page_url checkpoint = url
        ∧ CrawlCheckpoint.status checkpoint
          = (if truthy_opt_str next_page_url then PARTIAL else SUCCESS)
        ∧ CrawlCheckpoint.total_books_crawled checkpoint
          = Stats.total_books (stats w').
Proof.
  intros Hpage.
  pose proof (scrape_catalog_page_healthy url book_urls next_page_url w Hpage)
    as Hcatalog.
  destruct Hpage as (Htruthy & Hbooks & _).
  cbn [scrape_pages]. rewrite Htruthy. cbn [negb].
  rewrite bind_run, Hcatalog. cbn [fst snd].
  destruct book_urls as [ | book_url book_urls ]; [ done | ].
  set (urls := book_url :: book_urls). clearbody urls.
  rewrite !bind_run.
  set (w1 := with_effects _ w).
  pose proof (mapM_scrape_book_quiet urls w1) as (l & Hl & Hquiet).
  set (w2 := snd (mapM scrape_book urls w1)) in *.
  cbn [fst snd get_stats update_stats new_CrawlCheckpoint utcnow ret bind
       emit].
  set (checkpoint := CrawlCheckpoint.mk _ _ _ _ _ _ _).
  set (w3 := mkWorld _ _ _ _ _ _).
  destruct (save_checkpoint_lookup checkpoint w3) as [i Hi].
  eexists. split; [ reflexivity | ]. split.
  - exists (Get url :: l ++ [Pause]).
    cbn [with_effects effects]. rewrite save_checkpoint_effects.
    unfold w3. cbn [effects with_stats]. rewrite Hl.
    unfold w1. cbn [with_effects effects].
    rewrite <- !app_assoc. split; [ reflexivity | ].
    change (Get url :: l ++ [Pause]) with ([Get url] ++ l ++ [Pause]).
    rewrite !pauses_app, Hquiet. reflexivity.
  - exists (set_checkpoint_id i checkpoint).
    cbn [with_effects db_checkpoints stats]. split; [ exact Hi | ].
    rewrite save_checkpoint_stats. by repeat split.
Qed.

(** X16. On a catalog of healthy pages the walk comes to its end when it
    is given the time for them: the loop ends because no page is left,
    every page was processed once (one pause each), and the last
    checkpoint names the last page, says [success] and holds the running
    total. *)
Theorem scrape_pages_healthy_catalog (url : string) (rest : list string)
    (pages : nat) (w : World) :
  healthy_catalog url rest →
  (length rest < pages)%nat →
  let r := scrape_pages pages (Some url) w in
  (∃ current_page_url,
     fst r = Finished current_page_url
     ∧ truthy_opt_str current_page_url = false)
  ∧ (∃ l, effects (snd r) = effects w ++ l
          ∧ pauses l = S (length rest))
  ∧ ∃ checkpoint,
      db_checkpoints (snd r) !! "main_crawl" = Some checkpoint
      ∧ CrawlCheckpoint.last_page_url checkpoint = default url (last rest)
      ∧ CrawlCheckpoint.status checkpoint = SUCCESS
      ∧ CrawlCheckpoint.total_books_crawled checkpoint
        = Stats.total_books (stats (snd r)).
Proof.
  cbv zeta. revert url pages w.
  induction rest as [ | next rest IH ]; intros url pages w Hcatalog Hpages.
  - destruct Hcatalog as (book_urls & next_page_url & Hpage & Hlast).
    destruct pages as [ | pages ]; [ simpl in Hpages; lia | ].
    destruct (scrape_pages_healthy_step pages url book_urls next_page_url w
                Hpage) as (w' & -> & Htrace & checkpoint & Hcp).
    rewrite scrape_pages_done by exact Hlast. cbn [fst snd].
    split; [ by exists next_page_url | ]. split; [ exact Htrace | ].
    exists checkpoint. rewrite Hlast in Hcp. exact Hcp.
  - destruct Hcatalog as ((book_urls & Hpage) & Hrest).
    destruct pages as [ | pages ]; [ simpl in Hpages; lia | ].
    destruct (scrape_pages_healthy_step pages url book_urls (Some next) w
                Hpage) as (w' & -> & (l & Hl & Hone) & _).
    destruct (IH next pages w' Hrest) as (Hend & (l' & Hl' & Hmore) & Hcp).
    { simpl in Hpages. lia. }
    split; [ exact Hend | ]. split.
    + exists (l ++ l'). rewrite Hl', Hl, <- app_assoc.
      split; [ reflexivity | ]. rewrite pauses_app, Hone, Hmore.
      simpl. lia.
    + destruct Hcp as (checkpoint & Hlookup & Hlast & Hrest').
      exists checkpoint. split; [ exact Hlookup | ].
      split; [ | exact Hrest' ]. rewrite Hlast.
      destruct rest as [ | next' rest ]; [ reflexivity | ].
      rewrite last_cons_cons.
      destruct (last (next' :: rest)) eqn:Hnone; [ reflexivity | ].
      by apply last_None in Hnone.
Qed.
End HealthyWalk.

(** ** The events of a comparison *)

(** X17. The events of one comparison come in a fixed order: the price
    event first, then the availability event, then a content event. *)
Theorem compare_books_order `{Clock} (old_book new_book : Book.t) (w : World) :
  map ChangeLog.change_type (fst (compare_books old_book new_book w))
    `sublist_of` [PRICE_CHANGE; AVAILABILITY_CHANGE; CONTENT_CHANGE].
Proof.
  unfold compare_books, new_ChangeLog, utcnow, bind, ret.
  destruct (float_ne (Book.price_incl_tax old_book) _);
    destruct (int_ne (Book.num_available old_book) _);
    destruct (int_ne (Book.num_reviews old_book) _); simpl;
    try destruct (bool_decide _); simpl;
    repeat first [ apply sublist_nil | apply sublist_skip, sublist_nil
                 | apply sublist_skip | apply sublist_cons ].
Qed.

(** X18. Every event of a comparison is filed under the stored record: it
    carries the id of the old record, or its URL when the old record has
    no id or an empty one, and the name of the old record, also when the
    new record has another name; it has a description and no id of its
    own yet. *)
Theorem compare_books_identity `{Clock} (old_book new_book : Book.t)
    (w : World) :
  Forall (fun c =>
            ChangeLog.book_id c
            = or_str (Book.id old_book) (Book.source_url old_book)
            ∧ ChangeLog.book_name c = Book.name old_book
            ∧ is_Some (ChangeLog.description c)
            ∧ ChangeLog.id c = None)
         (fst (compare_books old_book new_book w)).
Proof.
  unfold compare_books, new_ChangeLog, utcnow, bind, ret.
  destruct (float_ne (Book.price_incl_tax old_book) _);
    destruct (int_ne (Book.num_available old_book) _);
    destruct (int_ne (Book.num_reviews old_book) _); simpl;
    try destruct (bool_decide _); simpl;
    repeat (constructor; [ by repeat split; try eexists | ]); constructor.
Qed.

(** ** A catalog page without books *)

Section EmptyPage.
Context `{Clock} `{Network} `{Parser} `{Hashlib} `{Mongo}.

(** X19. A catalog page that is fetched but lists no book ends the walk
    on the spot: one request, no book fetched, no checkpoint written for
    the page, no pause, and the page is left as the current one. *)
Theorem scrape_pages_empty_page (pages : nat) (url html : string)
    (w : World) :
  truthy_str url = true →
  (∃ status_code,
     client_get (requests (effects w)) url = Response status_code html
     ∧ raise_for_status status_code = Ok tt) →
  parse_book_list_page html url = Ok [] →
  scrape_pages (S pages) (Some url) w
  = (Finished (Some url), with_effects (fun l => l ++ [Get url]) w).
Proof.
  intros Htruthy (code & Hreply & Hcode) Hnone.
  assert (Hpage : ∃ next_page_url,
             scrape_catalog_page url w
             = (([], next_page_url),
                with_effects (fun l => l ++ [Get url]) w)).
  { assert (Hfetch : fetch_page url w
                     = (Ok html, with_effects (fun l => l ++ [Get url]) w)).
    { rewrite fetch_page_unrolled. unfold fetch_page_attempt at 1.
      rewrite bind_run. cbn [fst snd http_get]. by rewrite Hreply, Hcode. }
    unfold scrape_catalog_page. rewrite bind_run, Hfetch. cbn [fst snd].
    rewrite Hnone.
    destruct (get_next_page_url html url); eexists; reflexivity. }
  destruct Hpage as (next_page_url & Hpage).
  cbn [scrape_pages]. rewrite Htruthy. cbn [negb].
  rewrite bind_run, Hpage. reflexivity.
Qed.
End EmptyPage.

(** ** The helpers and the API key *)

Lemma append_cons (a : Ascii.ascii) (s t : string) :
  String a s +:+ t = String a (s +:+ t).
Proof. reflexivity. Qed.

Lemma append_empty (t : string) : EmptyString +:+ t = t.
Proof. reflexivity. Qed.

Lemma prefix_append (key text : string) :
  String.prefix key text = true ↔ ∃ after, text = key +:+ after.
Proof.
  revert text. induction key as [ | a key IH ]; intros text.
  - split; [ intros _; exists text; reflexivity | intros _; by destruct text ].
  - destruct text as [ | b text ]; simpl.
    + split; [ discriminate | intros (after & Heq) ].
      rewrite append_cons in Heq. discriminate.
    + destruct (Ascii.ascii_dec a b) as [ -> | Hne ].
      * rewrite IH. split; intros (after & Heq); exists after.
        -- rewrite append_cons. by rewrite Heq.
        -- rewrite append_cons in Heq. by injection Heq.
      * split; [ discriminate | intros (after & Heq) ].
        rewrite append_cons in Heq. congruence.
Qed.

Lemma str_in_occurs (key text : string) :
  str_in key text = true ↔ occurs key text.
Proof.
  induction text as [ | b text IH ].
  - change (str_in key EmptyString)
      with (String.prefix key EmptyString || false).
    rewrite orb_false_r, prefix_append. split.
    + intros (after & Heq). exists EmptyString, after. by rewrite append_empty.
    + intros ([ | c before ] & after & Heq).
      * exists after. by rewrite append_empty in Heq.
      * rewrite append_cons in Heq. discriminate.
  - change (str_in key (String b text))
      with (String.prefix key (String b text) || str_in key text).
    rewrite orb_true_iff, prefix_append, IH. split.
    + intros [ (after & Heq) | (before & after & Heq) ].
      * exists EmptyString, after. by rewrite append_empty.
      * exists (String b before), after. rewrite append_cons. by rewrite Heq.
    + intros ([ | c before ] & after & Heq).
      * left. exists after. by rewrite append_empty in Heq.
      * right. rewrite append_cons in Heq. injection Heq as -> Heq.
        by exists before, after.
Qed.

Lemma str_in_absent (key text : string) :
  str_in key text = false → ¬ occurs key text.
Proof. rewrite <- str_in_occurs. by intros ->. Qed.

(** X20. [normalize_rating] answers with the first of One, Two, Three,
    Four, Five, in this order, that occurs anywhere in the class name,
    and with [None] exactly when none of them occurs. *)
Theorem normalize_rating_first_name (rating_class : string) :
  match normalize_rating rating_class with
  | Some rating =>
      ∃ earlier later,
        ["One"; "Two"; "Three"; "Four"; "Five"] = earlier ++ rating :: later
        ∧ occurs rating rating_class
        ∧ Forall (fun key => ¬ occurs key rating_class) earlier
  | None =>
      Forall (fun key => ¬ occurs key rating_class)
             ["One"; "Two"; "Three"; "Four"; "Five"]
  end.
Proof.
  unfold normalize_rating, rating_map. cbn [normalize_rating_loop].
  destruct (str_in "One" rating_class) eqn:H1.
  { exists [], ["Two"; "Three"; "Four"; "Five"].
    split; [ reflexivity | ]. split; [ by apply str_in_occurs | constructor ]. }
  apply str_in_absent in H1.
  destruct (str_in "Two" rating_class) eqn:H2.
  { exists ["One"], ["Three"; "Four"; "Five"].
    split; [ reflexivity | ].
    split; [ by apply str_in_occurs | by repeat constructor ]. }
  apply str_in_absent in H2.
  destruct (str_in "Three" rating_class) eqn:H3.
  { exists ["One"; "Two"], ["Four"; "Five"].
    split; [ reflexivity | ].
    split; [ by apply str_in_occurs | by repeat constructor ]. }
  apply str_in_absent in H3.
  destruct (str_in "Four" rating_class) eqn:H4.
  { exists ["One"; "Two"; "Three"], ["Five"].
    split; [ reflexivity | ].
    split; [ by apply str_in_occurs | by repeat constructor ]. }
  apply str_in_absent in H4.
  destruct (str_in "Five" rating_class) eqn:H5.
  { exists ["One"; "Two"; "Three"; "Four"], [].
    split; [ reflexivity | ].
    split; [ by apply str_in_occurs | by repeat constructor ]. }
  apply str_in_absent in H5.
  by repeat constructor.
Qed.

Lemma normalize_rating_valid (rating_class rating : string) :
  normalize_rating rating_class = Some rating →
  ∃ r, rating = rating_value r.
Proof.
  unfold normalize_rating, rating_map. cbn [normalize_rating_loop].
  destruct (str_in "One" rating_class); [ intros [= <-]; by exists ONE | ].
  destruct (str_in "Two" rating_class); [ intros [= <-]; by exists TWO | ].
  destruct (str_in "Three" rating_class); [ intros [= <-]; by exists THREE | ].
  destruct (str_in "Four" rating_class); [ intros [= <-]; by exists FOUR | ].
  destruct (str_in "Five" rating_class); [ intros [= <-]; by exists FIVE | ].
  discriminate.
Qed.

(** X21. The rating read off a page is always the name of a
    [BookRating], whatever the classes of the tag are, so the record
    built from it is never refused for its rating; and the class list
    the site uses, [star-rating] followed by the name of a rating, gives
    that rating. *)
Theorem extract_rating_is_a_rating (rating_p : option (list string)) :
  (∃ r, _extract_rating rating_p = rating_value r)
  ∧ ∀ r, _extract_rating (Some ["star-rating"; rating_value r])
         = rating_value r.
Proof.
  split; [ | by intros [] ].
  destruct rating_p as [ classes | ]; [ | by exists THREE ].
  simpl. induction classes as [ | cls classes IH ]; [ by exists THREE | ].
  cbn [_extract_rating_loop].
  destruct (normalize_rating cls) as [ rating | ] eqn:Hcls; [ | exact IH ].
  destruct (truthy_str rating); [ | exact IH ].
  by apply normalize_rating_valid in Hcls.
Qed.

(** X22. A request is let through only with the configured key, and is
    handed that key; a missing header, an empty key and any other key are
    answered with 403.  With an empty configured key no request is let
    through at all. *)
Theorem verify_api_key_only_configured (settings_api_key : string)
    (api_key : option string) :
  (∀ key, verify_api_key settings_api_key api_key = Returns key
          ↔ api_key = Some settings_api_key ∧ key = settings_api_key
            ∧ settings_api_key ≠ EmptyString)
  ∧ (∀ status_code detail,
       verify_api_key settings_api_key api_key
       = HTTPException status_code detail →
       status_code = 403).
Proof.
  unfold verify_api_key, truthy_str. split.
  - intros key. destruct api_key as [ given | ].
    + destruct (String.eqb given EmptyString) eqn:Hempty; cbn [negb].
      * apply String.eqb_eq in Hempty as ->.
        split; [ discriminate | intros ([= <-] & _ & Hne); by destruct Hne ].
      * apply String.eqb_neq in Hempty.
        destruct (String.eqb given settings_api_key) eqn:Hkey; cbn [negb].
        -- apply String.eqb_eq in Hkey as ->.
           split; [ by intros [= <-] | by intros (_ & -> & _) ].
        -- apply String.eqb_neq in Hkey.
           split; [ discriminate | intros ([= ->] & _); by destruct Hkey ].
    + split; [ discriminate | by intros (? & _) ].
  - intros status_code detail. destruct api_key as [ given | ].
    + destruct (String.eqb given EmptyString); cbn [negb];
        [ by intros [= <- _] | ].
      destruct (String.eqb given settings_api_key); cbn [negb];
        [ discriminate | by intros [= <- _] ].
    + by intros [= <- _].
Qed.

(** ** [clean_text] *)

Section CleanText.
Context {char : Type} (isspace : char → bool) (space : char).

Lemma spaced_weaken (prev : bool) (text : list char) :
  spaced isspace prev text → spaced isspace false text.
Proof.
  destruct text as [ | c text ]; simpl; [ done | ].
  destruct (isspace c); [ by intros [_ ?] | done ].
Qed.

Lemma spaced_app_l (prev : bool) (l1 l2 : list char) :
  spaced isspace prev (l1 ++ l2) → spaced isspace prev l1.
Proof.
  revert prev. induction l1 as [ | c l1 IH ]; intros prev; simpl; [ done | ].
  destruct (isspace c); [ intros [-> ?]; split; eauto | eauto ].
Qed.

Lemma spaced_app_r (prev : bool) (l1 l2 : list char) :
  spaced isspace prev (l1 ++ l2) → spaced isspace false l2.
Proof.
  revert prev. induction l1 as [ | c l1 IH ]; intros prev; simpl.
  - apply spaced_weaken.
  - destruct (isspace c); [ intros [_ ?]; eauto | eauto ].
Qed.

Lemma spaced_pair (prev : bool) (l1 l2 : list char) (x y : char) :
  spaced isspace prev (l1 ++ x :: y :: l2) → isspace x = true → isspace y = false.
Proof.
  intros Hspaced Hx. apply spaced_app_r in Hspaced. simpl in Hspaced.
  rewrite Hx in Hspaced. destruct Hspaced as [_ Hy].
  destruct (isspace y); [ by destruct Hy | done ].
Qed.

Lemma plain_app (l1 l2 : list char) :
  plain isspace space (l1 ++ l2)
  ↔ plain isspace space l1 ∧ plain isspace space l2.
Proof. apply Forall_app. Qed.

Lemma lstrip_split (text : list char) :
  ∃ before, text = before ++ lstrip isspace text
            ∧ Forall (fun c => isspace c = true) before.
Proof.
  induction text as [ | c text (before & Heq & Hbefore) ]; simpl.
  - by exists [].
  - destruct (isspace c) eqn:Hc.
    + exists (c :: before). split; [ by rewrite <- app_comm_cons, <- Heq | ].
      by constructor.
    + by exists [].
Qed.

Lemma lstrip_head (text : list char) (c : char) :
  head (lstrip isspace text) = Some c → isspace c = false.
Proof.
  induction text as [ | d text IH ]; simpl; [ done | ].
  destruct (isspace d) eqn:Hd; [ done | ]. simpl. by intros [= <-].
Qed.

Lemma lstrip_fixed (text : list char) :
  (∀ c, head text = Some c → isspace c = false) →
  lstrip isspace text = text.
Proof.
  destruct text as [ | c text ]; simpl; [ done | ].
  intros Hhead. by rewrite (Hhead c).
Qed.

Lemma rstrip_split (text : list char) :
  ∃ after, text = rstrip isspace text ++ after
           ∧ Forall (fun c => isspace c = true) after.
Proof.
  unfold rstrip.
  destruct (lstrip_split (reverse text)) as (before & Heq & Hbefore).
  exists (reverse before). split.
  - rewrite <- reverse_app, <- Heq. by rewrite reverse_involutive.
  - by apply Forall_reverse.
Qed.

Lemma rstrip_last (text : list char) (c : char) :
  last (rstrip isspace text) = Some c → isspace c = false.
Proof. unfold rstrip. rewrite last_reverse. apply lstrip_head. Qed.

Lemma rstrip_fixed (text : list char) :
  (∀ c, last text = Some c → isspace c = false) →
  rstrip isspace text = text.
Proof.
  intros Hlast. unfold rstrip. rewrite lstrip_fixed.
  - apply reverse_involutive.
  - intros c. rewrite head_reverse. apply Hlast.
Qed.

Lemma rstrip_head (text : list char) (c : char) :
  (∀ c, head text = Some c → isspace c = false) →
  head (rstrip isspace text) = Some c → isspace c = false.
Proof.
  intros Hhead. destruct (rstrip_split text) as (after & Heq & _).
  destruct (rstrip isspace text) as [ | d kept ]; [ done | ].
  simpl. intros [= <-]. apply Hhead. by rewrite Heq.
Qed.

Lemma strip_split (text : list char) :
  ∃ before after, text = before ++ strip isspace text ++ after
    ∧ Forall (fun c => isspace c = true) before
    ∧ Forall (fun c => isspace c = true) after.
Proof.
  unfold strip.
  destruct (lstrip_split text) as (before & Heq1 & Hbefore).
  destruct (rstrip_split (lstrip isspace text)) as (after & Heq2 & Hafter).
  exists before, after. by rewrite <- Heq2.
Qed.

Lemma strip_trimmed (text : list char) : trimmed isspace (strip isspace text).
Proof.
  unfold strip. split; intros c.
  - apply rstrip_head. intros d. apply lstrip_head.
  - apply rstrip_last.
Qed.

Lemma strip_fixed (text : list char) :
  trimmed isspace text → strip isspace text = text.
Proof.
  intros [Hhead Hlast]. unfold strip.
  rewrite (lstrip_fixed text Hhead). by apply rstrip_fixed.
Qed.

Hypothesis isspace_space : isspace space = true.

Lemma re_sub_spaces_spaced (in_run : bool) (text : list char) :
  spaced isspace in_run (re_sub_spaces isspace space in_run text).
Proof using isspace_space.
  revert in_run. induction text as [ | c text IH ]; intros in_run; simpl;
    [ done | ].
  destruct (isspace c) eqn:Hc.
  - destruct in_run; [ apply IH | ]. simpl. by rewrite isspace_space.
  - simpl. by rewrite Hc.
Qed.

Lemma re_sub_spaces_plain (in_run : bool) (text : list char) :
  plain isspace space (re_sub_spaces isspace space in_run text).
Proof.
  revert in_run. induction text as [ | c text IH ]; intros in_run; simpl;
    [ constructor | ].
  destruct (isspace c) eqn:Hc.
  - destruct in_run; [ apply IH | ]. constructor; [ done | apply IH ].
  - constructor; [ congruence | apply IH ].
Qed.

Lemma re_sub_spaces_fixed (in_run : bool) (text : list char) :
  plain isspace space text → spaced isspace in_run text →
  re_sub_spaces isspace space in_run text = text.
Proof.
  revert in_run. induction text as [ | c text IH ]; intros in_run; simpl;
    [ done | ].
  intros Hplain. apply Forall_cons in Hplain as [Hc Hplain].
  destruct (isspace c) eqn:Hspace.
  - intros [-> Hspaced]. rewrite (Hc eq_refl). f_equal. by apply IH.
  - intros Hspaced. f_equal. by apply IH.
Qed.

(** The three facts about a cleaned text the properties rest on. *)
Lemma clean_text_shape (text : option (list char)) :
  plain isspace space (clean_text isspace space text)
  ∧ spaced isspace false (clean_text isspace space text)
  ∧ trimmed isspace (clean_text isspace space text).
Proof using isspace_space.
  destruct text as [ [ | c text ] | ];
    [ | | ]; try (simpl; split; [ constructor | split; [ done | by split ] ]).
  unfold clean_text. set (replaced := re_sub_spaces _ _ _ _).
  destruct (strip_split replaced) as (before & after & Heq & _ & _).
  split; [ | split ].
  - pose proof (re_sub_spaces_plain false (c :: text)) as Hplain.
    fold replaced in Hplain. rewrite Heq in Hplain.
    apply plain_app in Hplain as [_ Hplain].
    by apply plain_app in Hplain as [Hplain _].
  - pose proof (re_sub_spaces_spaced false (c :: text)) as Hspaced.
    fold replaced in Hspaced. rewrite Heq in Hspaced.
    apply spaced_app_r in Hspaced. by apply spaced_app_l in Hspaced.
  - apply strip_trimmed.
Qed.

(** X23. In a cleaned text every whitespace character is a space that
    stands between two characters that are not whitespace: no tab or
    newline is left, no two spaces follow each other, and the text neither
    starts nor ends with a space. *)
Theorem clean_text_single_spaces (text : option (list char))
    (before after : list char) (c : char) :
  clean_text isspace space text = before ++ c :: after →
  isspace c = true →
  c = space
  ∧ (∃ before' b, before = before' ++ [b] ∧ isspace b = false)
  ∧ (∃ a after', after = a :: after' ∧ isspace a = false).
Proof using isspace_space.
  intros Heq Hc.
  destruct (clean_text_shape text) as (Hplain & Hspaced & Hhead & Hlast).
  rewrite Heq in Hplain, Hspaced, Hhead, Hlast. split; [ | split ].
  - apply plain_app in Hplain as [_ Hplain].
    apply Forall_cons in Hplain as [Hplain _]. by apply Hplain.
  - destruct before as [ | b0 before0 ] using rev_ind.
    + specialize (Hhead c eq_refl). congruence.
    + exists before0, b0. split; [ done | ].
      rewrite <- app_assoc in Hspaced. simpl in Hspaced.
      destruct (isspace b0) eqn:Hb; [ | done ].
      pose proof (spaced_pair _ _ _ _ _ Hspaced Hb). congruence.
  - destruct after as [ | a after' ].
    + specialize (Hlast c). rewrite last_snoc in Hlast.
      specialize (Hlast eq_refl). congruence.
    + exists a, after'. split; [ done | ].
      by apply (spaced_pair _ _ _ _ _ Hspaced).
Qed.

(** X24. Cleaning is idempotent: a cleaned text is left as it is. *)
Theorem clean_text_idempotent (text : option (list char)) :
  clean_text isspace space (Some (clean_text isspace space text))
  = clean_text isspace space text.
Proof using isspace_space.
  destruct (clean_text_shape text) as (Hplain & Hspaced & Htrimmed).
  destruct (clean_text isspace space text) as [ | c cleaned ] eqn:Heq;
    [ done | ].
  unfold clean_text at 1.
  rewrite re_sub_spaces_fixed by done. by apply strip_fixed.
Qed.

Lemma filter_all_space (text : list char) :
  Forall (fun c => isspace c = true) text →
  filter (fun c => isspace c = false) text = [].
Proof.
  induction 1 as [ | c text Hc _ IH ]; [ done | ].
  rewrite filter_cons_False by congruence. exact IH.
Qed.

(** X25. Cleaning touches whitespace only: the characters that are not
    whitespace are all kept, in their order. *)
Theorem clean_text_keeps_characters (text : list char) :
  filter (fun c => isspace c = false) (clean_text isspace space (Some text))
  = filter (fun c => isspace c = false) text.
Proof using isspace_space.
  assert (Hsub : ∀ in_run l,
             filter (fun c => isspace c = false)
                    (re_sub_spaces isspace space in_run l)
             = filter (fun c => isspace c = false) l).
  { intros in_run l. revert in_run.
    induction l as [ | c l IH ]; intros in_run; simpl; [ done | ].
    destruct (isspace c) eqn:Hc.
    - rewrite (filter_cons_False _ c) by congruence.
      destruct in_run; [ apply IH | ].
      rewrite filter_cons_False by congruence. apply IH.
    - rewrite !filter_cons_True by done. f_equal. apply IH. }
  destruct text as [ | c text ]; [ done | ].
  unfold clean_text. rewrite <- (Hsub false (c :: text)).
  set (replaced := re_sub_spaces _ _ _ _).
  destruct (strip_split replaced) as (before & after & Heq & Hb & Ha).
  rewrite Heq at 2. rewrite !filter_app.
  rewrite (filter_all_space before Hb), (filter_all_space after Ha).
  by rewrite app_nil_r.
Qed.
End CleanText.

(** ** The further properties at work on the sample data *)

Lemma detect_changes_total_witness :
  ∃ summary,
    fst (fst (fst first_detection)) = Some summary
    ∧ Summary.total_changes summary = 3
    ∧ Summary.total_changes summary
      = Summary.new_books summary + Summary.price_changes summary
        + Summary.availability_changes summary
        + Summary.content_changes summary.
Proof.
  eexists. split; [ vm_compute; reflexivity | ].
  split; [ reflexivity | ].
  refine (proj1 (@detect_changes_total sample_clock site_up sample_parser
                   sample_hashlib sample_mongo 10 ChangeDetector.initial []
                   empty_world _ _ _)).
  - reflexivity.
  - vm_compute. reflexivity.
Defined.

Lemma check_book_failure_witness :
  @_check_book sample_clock site_not_found sample_parser sample_hashlib
    sample_mongo book_a ChangeDetector.initial empty_world
  = (ChangeDetector.initial,
     with_effects (fun l => l ++ [Get book_a]) empty_world).
Proof.
  apply (@check_book_failure sample_clock site_not_found sample_parser
           sample_hashlib sample_mongo book_a ChangeDetector.initial
           empty_world).
  reflexivity.
Defined.

Lemma check_book_new_witness :
  ∃ change,
    ChangeDetector.changes (fst checked_book_a) = [change]
    ∧ ChangeLog.change_type change = NEW_BOOK
    ∧ ChangeLog.book_name change = book_a.
Proof.
  destruct (@check_book_new sample_clock site_up sample_parser sample_hashlib
              sample_mongo book_a ChangeDetector.initial empty_world _
              eq_refl eq_refl eq_refl)
    as (change & book_id & Hfst & Htype & Hid & Hname & _).
  exists change. unfold checked_book_a. rewrite Hfst.
  split; [ reflexivity | ]. split; [ exact Htype | exact Hname ].
Defined.

Lemma check_book_unchanged_witness :
  ChangeDetector.changes
    (fst (@_check_book sample_clock site_up sample_parser sample_hashlib
            sample_mongo book_a (fst checked_book_a) (snd checked_book_a)))
  = ChangeDetector.changes (fst checked_book_a)
  ∧ DetectorStats.unchanged
      (ChangeDetector.stats
         (fst (@_check_book sample_clock site_up sample_parser sample_hashlib
                 sample_mongo book_a (fst checked_book_a)
                 (snd checked_book_a))))
    = 1.
Proof.
  destruct (@check_book_unchanged sample_clock site_up sample_parser
              sample_hashlib sample_mongo book_a (fst checked_book_a)
              (snd checked_book_a) _ _ eq_refl eq_refl
              ltac:(vm_compute; reflexivity) eq_refl) as [-> _].
  split; reflexivity.
Defined.

Lemma check_book_changed_witness :
  ∃ event,
    ChangeDetector.changes
      (fst (@_check_book sample_clock site_changed sample_parser
              sample_hashlib sample_mongo book_a (fst checked_book_a)
              (snd checked_book_a)))
    = ChangeDetector.changes (fst checked_book_a) ++ [event]
    ∧ ChangeLog.change_type event = CONTENT_CHANGE.
Proof.
  destruct (@check_book_changed sample_clock site_changed sample_parser
              sample_hashlib sample_mongo book_a (fst checked_book_a)
              (snd checked_book_a) _ _ eq_refl eq_refl
              ltac:(vm_compute; reflexivity) ltac:(vm_compute; discriminate))
    as (events & _ & Hcontent & -> & _).
  destruct events as [ | event [ | ? ? ] ]; try discriminate Hcontent.
  exists event. split; [ reflexivity | ].
  pose proof (f_equal (map (fun t => snd (fst (fst (fst t))))) Hcontent)
    as Htype.
  vm_compute in Htype. injection Htype as Htype. exact Htype.
Defined.


Lemma detect_changes_book_counts_witness :
  ∃ summary,
    fst (fst (fst first_detection)) = Some summary
    ∧ Summary.initial_book_count summary = 0
    ∧ Summary.final_book_count summary
      = Summary.initial_book_count summary + (Summary.new_books summary - 0).
Proof.
  eexists. split; [ vm_compute; reflexivity | ].
  split; [ reflexivity | ].
  refine (@detect_changes_book_counts sample_clock site_up sample_parser
            sample_hashlib sample_mongo 10 ChangeDetector.initial []
            empty_world _ _ _).
  - intros html url book [= <-]. reflexivity.
  - vm_compute. reflexivity.
Defined.


Lemma detect_changes_site_down_witness :
  ∃ summary,
    fst (fst (@detect_changes sample_clock site_not_found sample_parser
                sample_hashlib sample_mongo 10 ChangeDetector.initial []
                empty_world))
    = (Some summary, ChangeDetector.initial)
    ∧ Summary.total_changes summary = 0.
Proof.
  destruct (@detect_changes_site_down sample_clock site_not_found
              sample_parser sample_hashlib sample_mongo 9
              ChangeDetector.initial [] empty_world eq_refl)
    as (summary & Hrun & _ & Htotal & _).
  exists summary. split; [ exact Hrun | exact Htotal ].
Defined.



Lemma scrape_pages_healthy_catalog_witness :
  ∃ checkpoint,
    db_checkpoints
      (snd (@scrape_pages sample_clock site_up sample_parser sample_hashlib
              sample_mongo 5 (Some page_1) empty_world))
    !! "main_crawl" = Some checkpoint
    ∧ CrawlCheckpoint.last_page_url checkpoint = page_2
    ∧ CrawlCheckpoint.status checkpoint = SUCCESS.
Proof.
  destruct (@scrape_pages_healthy_catalog sample_clock site_up sample_parser
              sample_hashlib sample_mongo page_1 [page_2] 5 empty_world)
    as (_ & _ & checkpoint & Hlookup & Hpage & Hstatus & _).
  - split.
    + exists [book_a; book_b]. split; [ reflexivity | ].
      split; [ discriminate | ]. exists page_1.
      split; [ intros history; exists 200; by split | by split ].
    + exists [book_c], None. split; [ | reflexivity ].
      split; [ reflexivity | ]. split; [ discriminate | ]. exists page_2.
      split; [ intros history; exists 200; by split | by split ].
  - simpl. lia.
  - exists checkpoint. split; [ exact Hlookup | ].
    split; [ exact Hpage | exact Hstatus ].
Defined.

Lemma scrape_pages_empty_page_witness :
  @scrape_pages sample_clock site_up sample_parser sample_hashlib
    sample_mongo 5 (Some base_url) empty_world
  = (Finished (Some base_url),
     with_effects (fun l => l ++ [Get base_url]) empty_world).
Proof.
  apply (@scrape_pages_empty_page sample_clock site_up sample_parser
           sample_hashlib sample_mongo 4 base_url base_url empty_world).
  - reflexivity.
  - exists 200. by split.
  - reflexivity.
Defined.

Lemma clean_text_single_spaces_witness :
  clean_text ascii_isspace ascii_space (Some untidy_title)
  = String.list_ascii_of_string "A Light in the Attic"
  ∧ ∃ before b, String.list_ascii_of_string "A" = before ++ [b]
                ∧ ascii_isspace b = false.
Proof.
  split; [ reflexivity | ].
  apply (@clean_text_single_spaces Ascii.ascii ascii_isspace ascii_space eq_refl
           (Some untidy_title) (String.list_ascii_of_string "A")
           (String.list_ascii_of_string "Light in the Attic") ascii_space
           eq_refl eq_refl).
Defined.

Lemma clean_text_idempotent_witness :
  clean_text ascii_isspace ascii_space
    (Some (clean_text ascii_isspace ascii_space (Some untidy_title)))
  = clean_text ascii_isspace ascii_space (Some untidy_title).
Proof.
  apply (@clean_text_idempotent Ascii.ascii ascii_isspace ascii_space eq_refl).
Defined.

Lemma clean_text_keeps_characters_witness :
  filter (fun c => ascii_isspace c = false)
         (clean_text ascii_isspace ascii_space (Some untidy_title))
  = String.list_ascii_of_string "ALightintheAttic".
Proof.
  rewrite (@clean_text_keeps_characters Ascii.ascii ascii_isspace ascii_space
             eq_refl untidy_title).
  reflexivity.
Defined.
